(** * csv_to_gee_points: a shallow embedding of [csv_to_gee_points.py]

    The Python function reads a delimited file with [pandas.read_csv], picks a
    header row, normalises the decimal comma of the latitude and longitude
    columns, assembles one Earth Engine point definition per row into the
    column [points_def] and writes [df['points_def']] with [to_csv].  The
    model follows pandas 2.x (C parser) on CPython 3.11 with the POSIX line
    terminator, step by step:

    - [tokenize] / [read_csv]: the state machine of the pandas C tokenizer
      (default quoting with the double quote; records ended by [\n], [\r] or
      [\r\n]; empty and blank-only lines skipped; a leading UTF-8 byte order
      mark dropped), the argument check that refuses [sep='\n'], the header
      phase and the data phase with their errors, the implicit index pandas
      builds when the first data record is longer than the first record,
      missing-value markers read as [NaN], the UTF-8 decoding of the fields
      and per-column type inference (numeric, boolean, boolean with missing
      values, or strings);
    - [frame]: column labels, per-column "object dtype" flag and rows;
    - [iloc_row], [drop_rows], [getitem], [setitem], [select]: [df.iloc[i]],
      [df.iloc[n:]], [df[name]] read as a Series, [df[name] = values] and
      [df[name]] read as the frame of every column so labelled;
    - [replace_comma_with_dot_in_col], [get_second_part_of_def],
      [points_def] and [csv_to_gee_points]: the module's code;
    - [write_rows]: [to_csv(index=False, header=False, doublequote=False,
      quoting=csv.QUOTE_NONE, escapechar='\\', sep='\n')]: every row is handed
      to Python's csv writer, which joins the fields with the delimiter [\n],
      writes a backslash before each line break and each backslash of a
      field (the quote character is [None] under [QUOTE_NONE]), ends the
      record with [\n] and refuses a record made of one empty field;
    - the file system is a map from paths to file contents.

    Not modelled: the chunked reading pandas uses on files of more than about
    [2^20 / (number of columns)] rows (type inference is then made per
    chunk); NUL bytes; the tokenizer's backtracking over a line that ended
    with a lone [\r] when the next line starts with blanks; numerals the C
    converter rejects for their size (a decimal exponent beyond 308 after
    scaling, or more exponent digits than it reads), which the model counts
    as numerals; compressed input or output chosen by a path suffix such as
    [.gz]; separators of more than one character (the parameter is one
    character) and negative offsets (the parameter is a [nat]); the
    degenerate arithmetic on a label column whose name is repeated in the
    header (see [NotASeries]); and I/O errors on the output path. *)

From Stdlib Require Import String Ascii List Bool Arith ZArith Lia.
Import ListNotations.
Local Open Scope string_scope.
Local Open Scope nat_scope.

(** ** Characters *)

Definition tab : ascii := ascii_of_nat 9.
Definition nl : ascii := ascii_of_nat 10.
Definition cr : ascii := ascii_of_nat 13.
Definition dq : ascii := ascii_of_nat 34.
Definition bs : ascii := ascii_of_nat 92.
Definition comma : ascii := ascii_of_nat 44.
Definition dot : ascii := ascii_of_nat 46.

(** ** Errors and the result type *)

(** [NotASeries name]: [df[name]] selects more than one column, and the code
    fails on the frame it gets: [.str] raises [AttributeError]; the sum
    ['var ' + df[name] + ...] is a frame whose assignment to the single
    column [points_def] raises [ValueError] (the model does not follow the
    degenerate frame arithmetic further). *)
Inductive error :=
| ValueError                  (* read_csv(sep='\n') *)
| FileNotFound                (* open(csv_file) fails *)
| EmptyDataError              (* read_csv on a file with no records *)
| ParserError                 (* unterminated quote, over-long record *)
| UnicodeDecodeError          (* a field that is not valid UTF-8 *)
| IndexError                  (* df.iloc[i] out of range *)
| KeyError (name : string)    (* df[name] with name not a column label *)
| NotASeries (name : string)  (* df[name] with name a duplicated label *)
| StrAccessorError            (* .str accessor on non-string values *)
| TypeError                   (* str + non-string values *)
| CsvError.                   (* csv writer: single empty field record *)

Inductive result (A : Type) :=
| Ok (a : A)
| Err (e : error).
Arguments Ok {A} a.
Arguments Err {A} e.

Definition bind {A B} (m : result A) (k : A -> result B) : result B :=
  match m with
  | Ok a => k a
  | Err e => Err e
  end.

Notation "x <- m ;; k" := (bind m (fun x => k))
  (at level 61, m at next level, right associativity).

Fixpoint mapM2 {A B C} (f : A -> B -> result C) (l1 : list A) (l2 : list B)
  : result (list C) :=
  match l1, l2 with
  | a :: l1', b :: l2' => c <- f a b;; cs <- mapM2 f l1' l2';; Ok (c :: cs)
  | _, _ => Ok []
  end.

(** ** Cells and frames *)

(** A cell of a pandas frame: a Python string, a non-string scalar produced
    by type inference (int, float or bool, kept with its source text), or a
    missing value. *)
Inductive cell :=
| Str (s : string)
| Scalar (s : string)
| NaN.

Record frame := mkFrame {
  columns : list cell;
  dtype_object : list bool;
  rows : list (list cell)
}.

(** ** The pandas C tokenizer

    The states of [tokenizer.c] used with the options of this program
    ([skip_blank_lines=True], no escape or comment character, no
    [delim_whitespace]).  In [WhitespaceLine] the blanks read so far are kept
    in the field buffer: when a non-blank character follows, the tokenizer
    backtracks and reads them again as the start of the first field. *)
Inductive pstate :=
| StartRecord | StartField | InField | InQuoted | QuoteInQuoted
| WhitespaceLine | EatCrnl | EatCrnlNop.

Definition is_blank (c : ascii) : bool := (c =? " ")%char || (c =? tab)%char.

Definition field_of (fld : list ascii) : string := string_of_list_ascii (rev fld).

(** One step: the next state, field buffer and fields of the current
    record (both in reverse), and the record completed by this character.
    [field_step] covers the four field states. *)
Definition field_step (sep : ascii) (st : pstate) (fld : list ascii)
  (row : list string) (c : ascii)
  : pstate * list ascii * list string * option (list string) :=
  let ended := field_of fld :: row in
  let end_line := (StartRecord, [], [], Some (rev ended)) in
  let end_field := (StartField, [], ended, None) in
  let carriage := (EatCrnl, [], ended, None) in
  match st with
  | StartField =>
      if (c =? nl)%char then end_line
      else if (c =? cr)%char then carriage
      else if (c =? dq)%char then (InQuoted, fld, row, None)
      else if (c =? sep)%char then end_field
      else (InField, c :: fld, row, None)
  | InQuoted =>
      if (c =? dq)%char then (QuoteInQuoted, fld, row, None)
      else (InQuoted, c :: fld, row, None)
  | QuoteInQuoted =>
      if (c =? dq)%char then (InQuoted, c :: fld, row, None)
      else if (c =? sep)%char then end_field
      else if (c =? nl)%char then end_line
      else if (c =? cr)%char then carriage
      else (InField, c :: fld, row, None)
  | _ =>
      if (c =? nl)%char then end_line
      else if (c =? cr)%char then carriage
      else if (c =? sep)%char then end_field
      else (InField, c :: fld, row, None)
  end.

(** [START_RECORD]: an empty line is skipped, [\r] ends an empty line, a
    blank other than the separator may begin a blank line; anything else is
    read as in [START_FIELD]. *)
Definition start_record (sep c : ascii)
  : pstate * list ascii * list string * option (list string) :=
  if (c =? nl)%char then (StartRecord, [], [], None)
  else if (c =? cr)%char then (EatCrnlNop, [], [], None)
  else if is_blank c && negb (c =? sep)%char then (WhitespaceLine, [c], [], None)
  else field_step sep StartField [] [] c.

Definition step (sep : ascii) (st : pstate) (fld : list ascii) (row : list string)
  (c : ascii) : pstate * list ascii * list string * option (list string) :=
  match st with
  | StartRecord => start_record sep c
  | WhitespaceLine =>
      if (c =? nl)%char then (StartRecord, [], [], None)
      else if (c =? cr)%char then (EatCrnlNop, [], [], None)
      else if is_blank c && negb (c =? sep)%char then (WhitespaceLine, c :: fld, [], None)
      else field_step sep InField fld [] c
  | EatCrnl =>
      (* after [\r] ending a record: [\n] completes the line end; the
         separator ends the record and an empty field of the next one; any
         other character ends the record and is read again *)
      if (c =? nl)%char then (StartRecord, [], [], Some (rev row))
      else if (c =? sep)%char then (StartField, [], [""], Some (rev row))
      else let '(st', fld', row', _) := start_record sep c in
           (st', fld', row', Some (rev row))
  | EatCrnlNop =>
      if (c =? nl)%char || (c =? sep)%char then (StartRecord, [], [], None)
      else start_record sep c
  | _ => field_step sep st fld row c
  end.

(** The end of the input: the record in progress is completed; a quoted
    field left open is an error. *)
Definition at_eof (st : pstate) (fld : list ascii) (row : list string)
  : list (list string) * bool :=
  match st with
  | StartRecord | WhitespaceLine | EatCrnlNop => ([], false)
  | InQuoted => ([], true)
  | EatCrnl => ([rev row], false)
  | StartField | InField | QuoteInQuoted => ([rev (field_of fld :: row)], false)
  end.

Definition emit (out : option (list string)) (recs : list (list string))
  : list (list string) :=
  match out with Some r => r :: recs | None => recs end.

(** The records, and whether the input ended inside a quoted field. *)
Fixpoint tokenize (sep : ascii) (st : pstate) (fld : list ascii)
  (row : list string) (cs : list ascii) : list (list string) * bool :=
  match cs with
  | [] => at_eof st fld row
  | c :: cs' =>
      let '(st', fld', row', out) := step sep st fld row c in
      let (recs, err) := tokenize sep st' fld' row' cs' in
      (emit out recs, err)
  end.

Definition strip_bom (cs : list ascii) : list ascii :=
  match cs with
  | a :: b :: c :: cs' =>
      if (nat_of_ascii a =? 239) && (nat_of_ascii b =? 187) && (nat_of_ascii c =? 191)
      then cs' else cs
  | _ => cs
  end.

Definition records (sep : ascii) (txt : string) : list (list string) * bool :=
  tokenize sep StartRecord [] [] (strip_bom (list_ascii_of_string txt)).

(** ** UTF-8 decoding of the fields (Python's strict decoder) *)

Definition in_range (lo hi : nat) (c : ascii) : bool :=
  (lo <=? nat_of_ascii c) && (nat_of_ascii c <=? hi).

Fixpoint utf8_valid (cs : list ascii) : bool :=
  match cs with
  | [] => true
  | c :: cs1 =>
      let n := nat_of_ascii c in
      if n <? 128 then utf8_valid cs1
      else if in_range 194 223 c then
        match cs1 with
        | c1 :: cs2 => in_range 128 191 c1 && utf8_valid cs2
        | [] => false
        end
      else if in_range 224 239 c then
        match cs1 with
        | c1 :: c2 :: cs3 =>
            in_range (if n =? 224 then 160 else 128) (if n =? 237 then 159 else 191) c1 &&
            in_range 128 191 c2 && utf8_valid cs3
        | _ => false
        end
      else if in_range 240 244 c then
        match cs1 with
        | c1 :: c2 :: c3 :: cs4 =>
            in_range (if n =? 240 then 144 else 128) (if n =? 244 then 143 else 191) c1 &&
            in_range 128 191 c2 && in_range 128 191 c3 && utf8_valid cs4
        | _ => false
        end
      else false
  end.

Definition utf8_field (f : string) : bool := utf8_valid (list_ascii_of_string f).

(** ** Type inference of [read_csv] *)

(** pandas' default missing-value markers ([STR_NA_VALUES]). *)
Definition na_values : list string :=
  [""; "#N/A"; "#N/A N/A"; "#NA"; "-1.#IND"; "-1.#QNAN"; "-NaN"; "-nan";
   "1.#IND"; "1.#QNAN"; "<NA>"; "N/A"; "NA"; "NULL"; "NaN"; "None"; "n/a";
   "nan"; "null"].

Definition is_na (s : string) : bool := existsb (String.eqb s) na_values.

Definition to_cell (s : string) : cell := if is_na s then NaN else Str s.

Definition is_digit (c : ascii) : bool :=
  let n := nat_of_ascii c in (48 <=? n) && (n <=? 57).

Definition is_sign (c : ascii) : bool :=
  (c =? "+")%char || (c =? "-")%char.

(** [isspace_ascii] of the C converters. *)
Definition is_space (c : ascii) : bool :=
  let n := nat_of_ascii c in (n =? 32) || ((9 <=? n) && (n <=? 13)).

Fixpoint drop_spaces (cs : list ascii) : list ascii :=
  match cs with
  | c :: cs' => if is_space c then drop_spaces cs' else cs
  | [] => []
  end.

Definition trim_spaces (cs : list ascii) : list ascii :=
  rev (drop_spaces (rev (drop_spaces cs))).

Fixpoint digits (cs : list ascii) : nat * list ascii :=
  match cs with
  | c :: cs' => if is_digit c then let (k, r) := digits cs' in (S k, r)
                else (0, cs)
  | [] => (0, [])
  end.

Definition skip_sign (cs : list ascii) : list ascii :=
  match cs with
  | c :: cs' => if is_sign c then cs' else cs
  | [] => []
  end.

(** [sign? digits ('.' digits)? (('e'|'E') sign? digits)?] with at least
    one digit in the mantissa. *)
Definition numeral_body (cs0 : list ascii) : bool :=
  let cs := skip_sign cs0 in
  let (k1, r1) := digits cs in
  let '(k2, r2) :=
    match r1 with
    | c :: r => if (c =? ".")%char then digits r else (0, r1)
    | [] => (0, [])
    end in
  let exp_ok :=
    match r2 with
    | [] => true
    | c :: r =>
        if (c =? "e")%char || (c =? "E")%char then
          let (k3, r3) := digits (skip_sign r) in
          (0 <? k3) && (match r3 with [] => true | _ => false end)
        else false
    end in
  (0 <? k1 + k2) && exp_ok.

Definition lower (c : ascii) : ascii :=
  let n := nat_of_ascii c in
  if (65 <=? n) && (n <=? 90) then ascii_of_nat (n + 32) else c.

Definition lower_string (s : string) : string :=
  string_of_list_ascii (map lower (list_ascii_of_string s)).

(** The ints and floats the C parser converts: the numeral grammar between
    optional white space ([str_to_int64], [precise_xstrtod]), and the
    spellings of infinity compared without case. *)
Definition is_numeral (s : string) : bool :=
  numeral_body (trim_spaces (list_ascii_of_string s)) ||
  existsb (String.eqb (lower_string s))
    ["inf"; "+inf"; "-inf"; "infinity"; "+infinity"; "-infinity"].

(** [True]/[False] in any case ([to_boolean]). *)
Definition is_bool_literal (s : string) : bool :=
  existsb (String.eqb (lower_string s)) ["true"; "false"].

Definition numeral_cell (c : cell) : bool :=
  match c with Str s => is_numeral s | Scalar _ => true | NaN => true end.

Definition bool_cell (c : cell) : bool :=
  match c with Str s => is_bool_literal s | Scalar _ => true | NaN => true end.

Definition is_str (c : cell) : bool := match c with Str _ => true | _ => false end.

Definition is_nan (c : cell) : bool := match c with NaN => true | _ => false end.

(** The dtype a column is given: int or float when all its non-missing
    fields convert to numbers (an all-missing column is float), bool when all
    are booleans, object with [True]/[False]/[nan] when they are booleans
    with missing values, object strings otherwise and for a column without
    rows. *)
Inductive kind := Numeric | Boolean | BooleanNA | Text.

Definition col_kind (col : list cell) : kind :=
  match col with
  | [] => Text
  | _ =>
      if forallb numeral_cell col then Numeric
      else if forallb bool_cell col then
        (if existsb is_nan col then BooleanNA else Boolean)
      else Text
  end.

Definition kind_object (k : kind) : bool :=
  match k with Text | BooleanNA => true | Numeric | Boolean => false end.

Definition coerce (k : kind) (c : cell) : cell :=
  match k, c with
  | Text, _ => c
  | _, Str s => Scalar s
  | _, _ => c
  end.

Definition pad_row (w : nat) (r : list cell) : list cell :=
  r ++ repeat NaN (w - length r).

Definition column_of (j : nat) (rs : list (list cell)) : list cell :=
  map (fun r => nth j r NaN) rs.

Definition coerce_row (ks : list kind) (r : list cell) : list cell :=
  map (fun '(k, c) => coerce k c) (combine ks r).

(** The number of fields of the data records: the tokenizer completes a
    short record with empty fields up to the length of the previous one,
    except that the first data record may be longer than the first record. *)
Definition implicit_width (hd : list string) (data : list (list string)) : nat :=
  match data with
  | [] => length hd
  | r :: _ => Nat.max (length hd) (length r)
  end.

(** The cells of the data rows: the leading fields of a record that is
    longer than the first record form the implicit index and are not
    columns. *)
Definition data_cells (hd : list string) (data : list (list string))
  : list (list cell) :=
  let w := implicit_width hd data in
  map (fun r => skipn (w - length hd) (pad_row w (map to_cell r))) data.

(** The first record gives the column labels.  (pandas renames blank and
    repeated names, [Unnamed: i] and [name.k]; the code replaces all labels
    by [df.columns = ...] before any use, so the model keeps the fields.) *)
Definition build_frame (hd : list string) (data : list (list string)) : frame :=
  let raw := data_cells hd data in
  let ks := map (fun j => col_kind (column_of j raw)) (seq 0 (length hd)) in
  mkFrame (map Str hd) (map kind_object ks) (map (coerce_row ks) raw).

(** [pd.read_csv(path, sep=sep)] on a file holding [txt].  The header phase
    tokenizes two records and decodes the first; the data phase tokenizes
    the rest, checks the record lengths, then converts the columns. *)
Definition read_csv (sep : ascii) (txt : string) : result frame :=
  if (sep =? nl)%char then Err ValueError else
  let (recs, eof_in_quotes) := records sep txt in
  match recs with
  | [] => Err (if eof_in_quotes then ParserError else EmptyDataError)
  | hd :: data =>
      if eof_in_quotes && (match data with [] => true | _ => false end)
      then Err ParserError
      else if negb (forallb utf8_field hd) then Err UnicodeDecodeError
      else if eof_in_quotes || existsb (fun r => implicit_width hd data <? length r) data
      then Err ParserError
      else if negb (forallb (forallb utf8_field) data) then Err UnicodeDecodeError
      else Ok (build_frame hd data)
  end.

(** ** Frame operations *)

(** [df.iloc[i]] with Python's negative indexing. *)
Definition iloc_row (df : frame) (i : Z) : result (list cell) :=
  let n := Z.of_nat (length (rows df)) in
  let k := if (i <? 0)%Z then (n + i)%Z else i in
  if ((0 <=? k) && (k <? n))%Z
  then match nth_error (rows df) (Z.to_nat k) with
       | Some r => Ok r
       | None => Err IndexError
       end
  else Err IndexError.

(** [df.columns = labels] *)
Definition set_columns (df : frame) (labels : list cell) : frame :=
  mkFrame labels (dtype_object df) (rows df).

(** [df.iloc[n:]] *)
Definition drop_rows (n : nat) (df : frame) : frame :=
  mkFrame (columns df) (dtype_object df) (skipn n (rows df)).

Definition label_is (name : string) (c : cell) : bool :=
  match c with Str s => String.eqb s name | _ => false end.

Fixpoint positions (name : string) (cols : list cell) (j : nat) : list nat :=
  match cols with
  | [] => []
  | c :: cols' =>
      if label_is name c then j :: positions name cols' (S j)
      else positions name cols' (S j)
  end.

(** A pandas Series: whether Python's string operations accept it, and its
    values.  The operations accept a Series of object dtype whose values
    hold a string or are all missing (pandas' [.str] validation infers the
    type of the non-missing values; [str + Series] on object values skips the
    missing ones and fails on any other non-string). *)
Definition series := (bool * list cell)%type.

Definition string_like (col : list cell) : bool :=
  existsb is_str col || forallb is_nan col.

(** [df[name]]: a Series when [name] labels exactly one column. *)
Definition getitem (df : frame) (name : string) : result series :=
  match positions name (columns df) 0 with
  | [] => Err (KeyError name)
  | [j] => let col := column_of j (rows df) in
           Ok (nth j (dtype_object df) true && string_like col, col)
  | _ => Err (NotASeries name)
  end.

Fixpoint set_at (js : list nat) (v : cell) (j : nat) (r : list cell) : list cell :=
  match r with
  | [] => []
  | c :: r' => (if existsb (Nat.eqb j) js then v else c) :: set_at js v (S j) r'
  end.

Fixpoint flag_at (js : list nat) (f : bool) (j : nat) (fs : list bool) : list bool :=
  match fs with
  | [] => []
  | b :: fs' => (if existsb (Nat.eqb j) js then f else b) :: flag_at js f (S j) fs'
  end.

(** [df[name] = s]: every column labelled [name] is replaced by the values
    of [s] (pandas broadcasts a Series over a repeated label), or a new
    column is appended; the column takes the dtype of [s], object for the
    string Series this program assigns. *)
Definition setitem (df : frame) (name : string) (s : series) : frame :=
  match positions name (columns df) 0 with
  | [] => mkFrame (columns df ++ [Str name])%list (dtype_object df ++ [fst s])%list
            (map (fun '(r, v) => r ++ [v])%list (combine (rows df) (snd s)))
  | js => mkFrame (columns df) (flag_at js (fst s) 0 (dtype_object df))
            (map (fun '(r, v) => set_at js v 0 r) (combine (rows df) (snd s)))
  end.

(** A Python list of strings assigned as a column: object dtype, except the
    empty list, which becomes a float64 column. *)
Definition list_series (vals : list cell) : series :=
  (match vals with [] => false | _ => true end, vals).

(** [df[name]] as [to_csv] receives it: the records of the columns labelled
    [name], one column when the label is unique. *)
Definition select (df : frame) (name : string) : result (list (list cell)) :=
  match positions name (columns df) 0 with
  | [] => Err (KeyError name)
  | js => Ok (map (fun r => map (fun j => nth j r NaN) js) (rows df))
  end.

(** ** Series arithmetic and the [.str] accessor *)

Definition cat_cell (a b : cell) : result cell :=
  match a, b with
  | Str x, Str y => Ok (Str (x ++ y))
  | NaN, _ | _, NaN => Ok NaN
  | _, _ => Err TypeError
  end.

(** [a + b] on Series of equal index; a string literal is broadcast. *)
Definition s_add (a b : series) : result series :=
  if fst a && fst b then
    cs <- mapM2 cat_cell (snd a) (snd b);; Ok (true, cs)
  else Err TypeError.

Definition lit (s : string) (n : nat) : series := (true, repeat (Str s) n).

Fixpoint str_replace_comma (s : string) : string :=
  match s with
  | EmptyString => EmptyString
  | String c s' => String (if (c =? comma)%char then dot else c) (str_replace_comma s')
  end.

(** [.str.replace(',', '.')]: non-string elements become missing. *)
Definition str_replace_cell (c : cell) : cell :=
  match c with
  | Str s => Str (str_replace_comma s)
  | _ => NaN
  end.

(** ** The module's functions *)

Definition replace_comma_with_dot_in_col (df : frame) (col_name : string)
  : result (list cell) :=
  s <- getitem df col_name;;
  if fst s then Ok (map str_replace_cell (snd s)) else Err StrAccessorError.

Definition get_second_part_of_def (df : frame) (lat_col_name long_col_name : string)
  : result series :=
  let n := length (rows df) in
  lo <- getitem df long_col_name;;
  s1 <- s_add (lit " = ee.Geometry.Point([" n) lo;;
  s2 <- s_add s1 (lit "," n);;
  la <- getitem df lat_col_name;;
  s3 <- s_add s2 la;;
  s_add s3 (lit "]);" n).

(** [str(i)] *)
Fixpoint digits_of (fuel n : nat) (acc : string) : string :=
  match fuel with
  | 0 => acc
  | S f =>
      let acc' := String (ascii_of_nat (48 + n mod 10)) acc in
      if n <? 10 then acc' else digits_of f (n / 10) acc'
  end.

Definition str_of_nat (n : nat) : string := digits_of (S n) n "".

Record config := mkConfig {
  csv_file : string;
  out_file : string;
  lat_col_name : string;
  long_col_name : string;
  num_rows_before_header : nat;
  points_col_name : option string;
  sep : ascii
}.

Definition points_def_col_name : string := "points_def".

(** Lines 34 to 51 of the code: the frame after the column [points_def]
    has been assigned. *)
Definition points_def (cfg : config) (df0 : frame) : result frame :=
  let n := num_rows_before_header cfg in
  let lat := lat_col_name cfg in
  let long := long_col_name cfg in
  hdr <- iloc_row df0 (Z.of_nat n - 1);;
  let df1 := drop_rows n (set_columns df0 hdr) in
  la <- replace_comma_with_dot_in_col df1 lat;;
  let df2 := setitem df1 lat (true, la) in
  lo <- replace_comma_with_dot_in_col df2 long;;
  let df3 := setitem df2 long (true, lo) in
  let len := length (rows df3) in
  match points_col_name cfg with
  | Some p =>
      pc <- getitem df3 p;;
      a <- s_add (lit "var " len) pc;;
      b <- get_second_part_of_def df3 lat long;;
      d <- s_add a b;;
      Ok (setitem df3 points_def_col_name d)
  | None =>
      let df4 := setitem df3 "index"
                   (list_series (map (fun i => Str (str_of_nat i)) (seq 0 len))) in
      ix <- getitem df4 "index";;
      a <- s_add (lit "var point_" len) ix;;
      b <- get_second_part_of_def df4 lat long;;
      d <- s_add a b;;
      Ok (setitem df4 points_def_col_name d)
  end.

(** ** [to_csv] through Python's csv writer *)

Definition needs_escape (c : ascii) : bool := (c =? nl)%char || (c =? bs)%char.

Fixpoint escape (s : string) : string :=
  match s with
  | EmptyString => EmptyString
  | String c s' =>
      if needs_escape c then String bs (String c (escape s'))
      else String c (escape s')
  end.

Definition newline : string := String nl EmptyString.

(** The text of a cell ([na_rep='']). *)
Definition cell_text (c : cell) : string :=
  match c with Str s | Scalar s => s | NaN => "" end.

(** The fields of a record joined by the delimiter [\n]. *)
Fixpoint join_fields (fs : list string) : string :=
  match fs with
  | [] => ""
  | [f] => escape f
  | f :: fs' => escape f ++ newline ++ join_fields fs'
  end.

Definition single_empty_field (fs : list string) : bool :=
  match fs with [f] => String.eqb f "" | _ => false end.

(** The text written before the writer stops, and the error that stops it:
    under [QUOTE_NONE] a record made of one empty field is refused. *)
Fixpoint write_rows (recs : list (list cell)) : string * option error :=
  match recs with
  | [] => ("", None)
  | r :: recs' =>
      let fs := map cell_text r in
      if single_empty_field fs then ("", Some CsvError)
      else let (t, e) := write_rows recs' in (join_fields fs ++ newline ++ t, e)
  end.

(** Reading the written text back: a backslash takes the next character
    literally, an unescaped line break ends a line. *)
Fixpoint unescape_lines (cur : list ascii) (cs : list ascii) : list string :=
  match cs with
  | [] => match cur with [] => [] | _ => [string_of_list_ascii (rev cur)] end
  | c :: cs' =>
      if (c =? bs)%char then
        match cs' with
        | c' :: cs'' => unescape_lines (c' :: cur) cs''
        | [] => [string_of_list_ascii (rev (c :: cur))]
        end
      else if (c =? nl)%char then string_of_list_ascii (rev cur) :: unescape_lines [] cs'
      else unescape_lines (c :: cur) cs'
  end.

(** ** The file system and the entry point *)

Definition fs := string -> option string.

Definition update (m : fs) (p : string) (v : string) : fs :=
  fun q => if String.eqb q p then Some v else m q.

(** [read_csv] checks [sep] before it opens the file. *)
Definition csv_to_gee_points (m : fs) (cfg : config) : fs * result unit :=
  let df0 :=
    if (sep cfg =? nl)%char then Err ValueError
    else match m (csv_file cfg) with
         | None => Err FileNotFound
         | Some txt => read_csv (sep cfg) txt
         end in
  match df0 with
  | Err e => (m, Err e)
  | Ok df =>
      match points_def cfg df with
      | Err e => (m, Err e)
      | Ok df5 =>
          match select df5 points_def_col_name with
          | Err e => (m, Err e)
          | Ok recs =>
              let (content, e) := write_rows recs in
              (update m (out_file cfg) content,
               match e with None => Ok tt | Some e' => Err e' end)
          end
      end
  end.
(** ** The pipeline read row by row

    [points_def] works column by column, as pandas does.  The definitions
    below perform the same steps on one row, given the column labels in
    force; the lemma [points_def_rows] shows that the column-wise pipeline
    computes, for the [k]-th row after the header, what [row_def] computes
    on that row. *)

Definition cols_setitem (cols : list cell) (name : string) : list cell :=
  match positions name cols 0 with
  | [] => (cols ++ [Str name])%list
  | _ => cols
  end.

Definition row_setitem (cols : list cell) (name : string) (v : cell)
  (r : list cell) : list cell :=
  match positions name cols 0 with
  | [] => (r ++ [v])%list
  | js => set_at js v 0 r
  end.

Definition row_getitem (cols : list cell) (name : string) (r : list cell)
  : result cell :=
  match positions name cols 0 with
  | [] => Err (KeyError name)
  | [j] => Ok (nth j r NaN)
  | _ => Err (NotASeries name)
  end.

Definition row_second_part (cols : list cell) (lat long : string)
  (r : list cell) : result cell :=
  lo <- row_getitem cols long r;;
  s1 <- cat_cell (Str " = ee.Geometry.Point([") lo;;
  s2 <- cat_cell s1 (Str ",");;
  la <- row_getitem cols lat r;;
  s3 <- cat_cell s2 la;;
  cat_cell s3 (Str "]);").

Definition row_def (cfg : config) (hdr : list cell) (k : nat) (r : list cell)
  : result cell :=
  let lat := lat_col_name cfg in
  let long := long_col_name cfg in
  la <- row_getitem hdr lat r;;
  let r1 := row_setitem hdr lat (str_replace_cell la) r in
  let c1 := cols_setitem hdr lat in
  lo <- row_getitem c1 long r1;;
  let r2 := row_setitem c1 long (str_replace_cell lo) r1 in
  let c2 := cols_setitem c1 long in
  match points_col_name cfg with
  | Some p =>
      pc <- row_getitem c2 p r2;;
      a <- cat_cell (Str "var ") pc;;
      b <- row_second_part c2 lat long r2;;
      cat_cell a b
  | None =>
      let r3 := row_setitem c2 "index" (Str (str_of_nat k)) r2 in
      let c3 := cols_setitem c2 "index" in
      ix <- row_getitem c3 "index" r3;;
      a <- cat_cell (Str "var point_") ix;;
      b <- row_second_part c3 lat long r3;;
      cat_cell a b
  end.

(** The text of the output file for lines written without error. *)
Definition concat_lines (lines : list string) : string :=
  fold_right (fun l acc => escape l ++ newline ++ acc) "" lines.

(** ** Concrete inputs

    The example run of the module's [__main__] block: a file
    [csv_file.csv] separated by [;], columns [Lat] and [Long]. *)

Fixpoint lines_text (ls : list string) : string :=
  match ls with
  | [] => ""
  | l :: ls' => l ++ newline ++ lines_text ls'
  end.

Definition source (txt : string) : fs :=
  fun p => if String.eqb p "csv_file.csv" then Some txt else None.

Definition demo_cfg (n : nat) (p : option string) : config :=
  mkConfig "csv_file.csv" "out_file.txt" "Lat" "Long" n p ";"%char.

Definition run (txt : string) (cfg : config) : option string * result unit :=
  let (m', r) := csv_to_gee_points (source txt) cfg in (m' (out_file cfg), r).

(** Two leading records, the header [Lat;Long] and two data rows. *)
Definition demo_txt : string :=
  lines_text ["junk;junk"; "Lat;Long"; "45,1;7,2"; "1;2"].

(** A leading record, a header with a label column and one data row. *)
Definition named_txt : string :=
  lines_text ["junk;junk;junk"; "Name;Lat;Long"; "a,b;45,1;7,2"].

(** Case analysis on every bind of a goal, outermost first. *)
Ltac split_binds :=
  repeat (unfold bind; simpl;
          match goal with
          | |- context [match ?m with Ok _ => _ | Err _ => _ end] => destruct m
          end);
  try reflexivity.

(** [agrees rs col f]: the column [col] holds, at every row index [k], what
    [f k] computes on the [k]-th row of [rs]. *)
Definition agrees {A} (rs : list (list cell)) (col : list A)
  (f : nat -> list cell -> result A) : Prop :=
  length col = length rs /\
  forall k r, nth_error rs k = Some r ->
    exists x, nth_error col k = Some x /\ f k r = Ok x.

Create HintDb pyerr.

(** [int(s)] on a string of decimal digits. *)
Fixpoint dec_value (acc : nat) (s : string) : nat :=
  match s with
  | EmptyString => acc
  | String c s' => dec_value (acc * 10 + (nat_of_ascii c - 48)) s'
  end.

Definition all_digits (s : string) : bool := forallb is_digit (list_ascii_of_string s).

Definition no_comma (s : string) : bool :=
  forallb (fun c => negb (c =? comma)%char) (list_ascii_of_string s).

(** A cell a string operation accepts: a string or a missing value. *)
Definition strish (c : cell) : bool :=
  match c with Scalar _ => false | _ => true end.

(** The typing invariant of the frames [read_csv] builds: a column holding
    a string is of object dtype and holds only strings and missing values. *)
Definition text_frame (df : frame) : Prop :=
  forall r j s, In r (rows df) -> nth_error r j = Some (Str s) ->
    nth j (dtype_object df) true = true /\
    forall r', In r' (rows df) -> strish (nth j r' NaN) = true.

(** Every row has one cell per column. *)
Definition rect (df : frame) : Prop :=
  forall r, In r (rows df) -> length r = length (columns df).

(** The frames [read_csv] builds: typed as above, rectangular, with one
    dtype flag per column. *)
Definition loaded (df : frame) : Prop :=
  text_frame df /\ rect df /\ length (dtype_object df) = length (columns df).

(** A frame whose named columns are of object dtype and hold only strings
    and missing values, with one flag and one cell per column. *)
Definition sane (df : frame) : Prop :=
  length (dtype_object df) = length (columns df) /\
  (forall r, In r (rows df) -> length r = length (columns df)) /\
  (forall j s, nth_error (columns df) j = Some (Str s) ->
     nth j (dtype_object df) true = true /\
     forall r, In r (rows df) -> strish (nth j r NaN) = true).

(** The errors of a lookup [df[name]]. *)
Definition lookup_error (e : error) : Prop :=
  exists x, e = KeyError x \/ e = NotASeries x.

(** A result that is either a value satisfying [P] or a lookup error. *)
Definition good {A} (P : A -> Prop) (r : result A) : Prop :=
  match r with Ok a => P a | Err e => lookup_error e end.

(** An object series holding strings and missing values. *)
Definition ser_ok (s : series) : Prop :=
  fst s = true /\ Forall (fun c => strish c = true) (snd s).


(** The number of columns [df['points_def']] selects after the assignment:
    every column of the header labelled [points_def], or the new one. *)
Definition dup_count (hdr : list cell) : nat :=
  Nat.max 1 (length (positions points_def_col_name hdr 0)).

(** A frame cell read from a field: its text, or a missing value read from
    a missing-value marker (the empty field among them). *)
Definition cell_from (c : cell) (f : string) : Prop :=
  match c with Str s | Scalar s => s = f /\ is_na f = false | NaN => is_na f = true end.

(** ** Lines without quotes *)





(** A blank other than the separator: what a skipped blank line holds. *)
Definition skip_blank (sep c : ascii) : bool := is_blank c && negb (c =? sep)%char.



(** ** Lemmas about the embedding *)

Lemma nth_error_combine {A B} (l1 : list A) (l2 : list B) k :
  nth_error (combine l1 l2) k =
  match nth_error l1 k, nth_error l2 k with
  | Some a, Some b => Some (a, b)
  | _, _ => None
  end.
Proof.
  revert l2 k; induction l1 as [|a l1 IH]; intros [|b l2] [|k]; simpl; auto.
  - destruct (nth_error l1 k); reflexivity.
Qed.

Lemma mapM2_spec {A B C} (f : A -> B -> result C) l1 l2 l3 :
  mapM2 f l1 l2 = Ok l3 ->
  length l3 = Nat.min (length l1) (length l2) /\
  forall k z, nth_error l3 k = Some z ->
    exists x y, nth_error l1 k = Some x /\ nth_error l2 k = Some y /\ f x y = Ok z.
Proof.
  revert l2 l3; induction l1 as [|a l1 IH]; intros [|b l2] l3 H; simpl in H.
  - injection H as <-; split; [reflexivity | intros [|k] z Hz; discriminate].
  - injection H as <-; split; [reflexivity | intros [|k] z Hz; discriminate].
  - injection H as <-; split; [reflexivity | intros [|k] z Hz; discriminate].
  - destruct (f a b) as [c|e] eqn:Hf; [|discriminate]; simpl in H.
    destruct (mapM2 f l1 l2) as [cs|e] eqn:Hr; [|discriminate]; simpl in H.
    injection H as <-.
    destruct (IH l2 cs Hr) as [Hlen Hnth].
    split; [simpl; lia|].
    intros [|k] z Hz; simpl in Hz.
    + injection Hz as <-. exists a, b. auto.
    + exact (Hnth k z Hz).
Qed.

Lemma s_add_spec a b c :
  s_add a b = Ok c ->
  fst c = true /\ mapM2 cat_cell (snd a) (snd b) = Ok (snd c).
Proof.
  unfold s_add. destruct (fst a && fst b); [|discriminate].
  destruct (mapM2 cat_cell (snd a) (snd b)) as [cs|e]; simpl; [|discriminate].
  intros H; injection H as <-; auto.
Qed.

Lemma getitem_spec df name s :
  getitem df name = Ok s ->
  exists j, positions name (columns df) 0 = [j] /\
            s = (nth j (dtype_object df) true && string_like (column_of j (rows df)),
                 column_of j (rows df)).
Proof.
  unfold getitem. destruct (positions name (columns df) 0) as [|j [|j' js]];
    try discriminate.
  intros H; injection H as <-. eauto.
Qed.

Lemma nth_error_column_of j rs k :
  nth_error (column_of j rs) k = option_map (fun r => nth j r NaN) (nth_error rs k).
Proof. unfold column_of. apply nth_error_map. Qed.

Lemma In_skipn_in {A} n (l : list A) x : In x (skipn n l) -> In x l.
Proof. intros H. rewrite <- (firstn_skipn n l). apply in_or_app. right. exact H. Qed.

Lemma string_app_assoc (a b c : string) : (a ++ b) ++ c = a ++ (b ++ c).
Proof. induction a as [|x a IH]; simpl; [reflexivity|]. rewrite IH. reflexivity. Qed.

Lemma string_app_nil_r (s : string) : s ++ EmptyString = s.
Proof. induction s as [|c s IH]; simpl; [reflexivity|]. rewrite IH. reflexivity. Qed.

Lemma list_ascii_of_string_app (a b : string) :
  list_ascii_of_string (a ++ b) = (list_ascii_of_string a ++ list_ascii_of_string b)%list.
Proof. induction a as [|c a IH]; simpl; [reflexivity | rewrite IH; reflexivity]. Qed.

(** *** Column positions and row updates *)

Lemma positions_spec name cols i j :
  In j (positions name cols i) ->
  i <= j /\ nth_error cols (j - i) = Some (Str name).
Proof.
  revert i; induction cols as [|c cols IH]; intros i H; simpl in H; [contradiction|].
  destruct (label_is name c) eqn:Hc.
  - destruct H as [<- | H].
    + split; [lia|]. rewrite Nat.sub_diag. simpl.
      destruct c; try discriminate. apply String.eqb_eq in Hc. subst. reflexivity.
    + destruct (IH (S i) H) as [Hle Hn]. split; [lia|].
      replace (j - i) with (S (j - S i)) by lia. exact Hn.
  - destruct (IH (S i) H) as [Hle Hn]. split; [lia|].
    replace (j - i) with (S (j - S i)) by lia. exact Hn.
Qed.

Lemma positions_lt name cols j :
  In j (positions name cols 0) -> j < length cols.
Proof.
  intros H. apply positions_spec in H as [_ H]. rewrite Nat.sub_0_r in H.
  apply nth_error_Some. congruence.
Qed.

Lemma positions_app name cols c i :
  positions name (cols ++ [c])%list i =
  (positions name cols i ++ (if label_is name c then [i + length cols] else []))%list.
Proof.
  revert i; induction cols as [|c' cols IH]; intros i; simpl.
  - rewrite Nat.add_0_r. destruct (label_is name c); reflexivity.
  - rewrite IH. replace (S i + length cols) with (i + S (length cols)) by lia.
    destruct (label_is name c'); reflexivity.
Qed.

Lemma length_set_at js v j r : length (set_at js v j r) = length r.
Proof.
  revert j; induction r as [|c r IH]; intros j; simpl; [reflexivity|].
  rewrite IH. reflexivity.
Qed.

Lemma nth_set_at js v i r k d :
  k < length r ->
  nth k (set_at js v i r) d = if existsb (Nat.eqb (i + k)) js then v else nth k r d.
Proof.
  revert i k; induction r as [|c r IH]; intros i k Hk; simpl in Hk; [lia|].
  destruct k as [|k]; simpl.
  - rewrite Nat.add_0_r. reflexivity.
  - rewrite IH by lia. replace (S i + k) with (i + S k) by lia. reflexivity.
Qed.

Lemma length_flag_at js f i fs : length (flag_at js f i fs) = length fs.
Proof.
  revert i; induction fs as [|b fs IH]; intros i; simpl; [reflexivity|].
  rewrite IH. reflexivity.
Qed.

Lemma nth_flag_at js f i fs k :
  k < length fs ->
  nth k (flag_at js f i fs) true = if existsb (Nat.eqb (i + k)) js then f else nth k fs true.
Proof.
  revert i k; induction fs as [|b fs IH]; intros i k Hk; simpl in Hk; [lia|].
  destruct k as [|k]; simpl.
  - rewrite Nat.add_0_r. reflexivity.
  - rewrite IH by lia. replace (S i + k) with (i + S k) by lia. reflexivity.
Qed.

Lemma existsb_eqb_in j js : In j js -> existsb (Nat.eqb j) js = true.
Proof.
  intros H. apply existsb_exists. exists j. split; [exact H | apply Nat.eqb_refl].
Qed.

Lemma label_is_str name : label_is name (Str name) = true.
Proof. simpl. apply String.eqb_refl. Qed.

(** *** Frame updates *)

Lemma rows_setitem df name s :
  rows (setitem df name s) =
  map (fun '(r, v) => row_setitem (columns df) name v r) (combine (rows df) (snd s)).
Proof.
  unfold setitem, row_setitem.
  destruct (positions name (columns df) 0); reflexivity.
Qed.

Lemma columns_setitem df name s :
  columns (setitem df name s) = cols_setitem (columns df) name.
Proof.
  unfold setitem, cols_setitem.
  destruct (positions name (columns df) 0); reflexivity.
Qed.

Lemma nth_error_rows_setitem df name s k r v :
  nth_error (rows df) k = Some r -> nth_error (snd s) k = Some v ->
  nth_error (rows (setitem df name s)) k = Some (row_setitem (columns df) name v r).
Proof.
  intros Hr Hv. rewrite rows_setitem, nth_error_map, nth_error_combine, Hr, Hv.
  reflexivity.
Qed.

Lemma length_rows_setitem df name s :
  length (snd s) = length (rows df) ->
  length (rows (setitem df name s)) = length (rows df).
Proof.
  intros H. rewrite rows_setitem, length_map, length_combine. lia.
Qed.

Lemma cols_setitem_found cols name j :
  positions name cols 0 = [j] -> cols_setitem cols name = cols.
Proof. intros H. unfold cols_setitem. rewrite H. reflexivity. Qed.

Lemma rect_setitem df name s : rect df -> rect (setitem df name s).
Proof.
  intros R r Hr. unfold setitem in *.
  destruct (positions name (columns df) 0) as [|j js]; simpl in *;
    apply in_map_iff in Hr as [[r0 v] [<- Hin]];
    pose proof (R r0 (in_combine_l _ _ _ _ Hin)) as L.
  - rewrite !length_app. simpl. lia.
  - rewrite length_set_at. exact L.
Qed.

Lemma select_append (rs : list (list cell)) (vs : list cell) w :
  length rs = length vs -> (forall r, In r rs -> length r = w) ->
  map (fun r => map (fun j => nth j r NaN) [w])
      (map (fun '(r, v) => (r ++ [v])%list) (combine rs vs)) =
  map (fun v => repeat v 1) vs.
Proof.
  revert vs; induction rs as [|r rs IH]; intros [|v vs] L H; simpl in L; try lia;
    [reflexivity|].
  cbn [combine map]. rewrite app_nth2 by (rewrite (H r (or_introl eq_refl)); lia).
  rewrite (H r (or_introl eq_refl)), Nat.sub_diag.
  f_equal. apply IH; [lia|]. intros r' Hr'. apply H. right. exact Hr'.
Qed.

Lemma select_set_at_row js v r l :
  (forall j, In j l -> In j js /\ j < length r) ->
  map (fun j => nth j (set_at js v 0 r) NaN) l = repeat v (length l).
Proof.
  induction l as [|j l IH]; intros H; [reflexivity|].
  cbn [map length repeat]. destruct (H j (or_introl eq_refl)) as [Hin Hlt].
  rewrite nth_set_at by exact Hlt. simpl. rewrite existsb_eqb_in by exact Hin.
  f_equal. apply IH. intros j' Hj'. apply H. right. exact Hj'.
Qed.

Lemma select_set_at (rs : list (list cell)) (vs : list cell) js :
  length rs = length vs -> (forall r j, In r rs -> In j js -> j < length r) ->
  map (fun r => map (fun j => nth j r NaN) js)
      (map (fun '(r, v) => set_at js v 0 r) (combine rs vs)) =
  map (fun v => repeat v (length js)) vs.
Proof.
  revert vs; induction rs as [|r rs IH]; intros [|v vs] L H; simpl in L; try lia;
    [reflexivity|].
  cbn [combine map]. f_equal.
  - apply select_set_at_row. intros j Hj. split; [exact Hj|].
    apply H; [left; reflexivity | exact Hj].
  - apply IH; [lia|]. intros r' j Hr' Hj. apply H; [right; exact Hr' | exact Hj].
Qed.

(** After [df[name] = s], [df[name]] selects the values of [s], once per
    column labelled [name]. *)
Lemma select_setitem df name s :
  rect df -> length (snd s) = length (rows df) ->
  select (setitem df name s) name =
  Ok (map (fun v => repeat v (Nat.max 1 (length (positions name (columns df) 0)))) (snd s)).
Proof.
  intros R L. destruct s as [f vs]. simpl in L |- *. unfold select, setitem.
  destruct (positions name (columns df) 0) as [|j js] eqn:P; cbn [columns rows].
  - rewrite positions_app, P, label_is_str. cbn [app].
    f_equal. apply select_append; [lia|]. intros r Hr. apply R. exact Hr.
  - rewrite P. f_equal.
    replace (Nat.max 1 (length (j :: js))) with (length (j :: js)) by (simpl; lia).
    apply select_set_at; [lia|].
    intros r i Hr Hi. rewrite (R r Hr). apply (positions_lt name). rewrite P. exact Hi.
Qed.

Lemma positions_cols_setitem_other name name' cols :
  label_is name (Str name') = false ->
  positions name (cols_setitem cols name') 0 = positions name cols 0.
Proof.
  intros H. unfold cols_setitem. destruct (positions name' cols 0); [|reflexivity].
  rewrite positions_app, H, app_nil_r. reflexivity.
Qed.

(** *** The pipeline row by row *)

Lemma agrees_getitem df name s :
  getitem df name = Ok s ->
  agrees (rows df) (snd s) (fun _ r => row_getitem (columns df) name r).
Proof.
  intros H. apply getitem_spec in H as [j [Hpos ->]]. simpl.
  split; [unfold column_of; apply length_map|].
  intros k r Hr. exists (nth j r NaN).
  rewrite nth_error_column_of, Hr. split; [reflexivity|].
  unfold row_getitem. rewrite Hpos. reflexivity.
Qed.

Lemma agrees_lit rs s :
  agrees rs (snd (lit s (length rs))) (fun _ _ => Ok (Str s)).
Proof.
  split; [apply repeat_length|].
  intros k r Hr. exists (Str s). split; [|reflexivity].
  apply nth_error_repeat. apply nth_error_Some. congruence.
Qed.

Lemma agrees_s_add rs a b c fa fb :
  agrees rs (snd a) fa -> agrees rs (snd b) fb -> s_add a b = Ok c ->
  agrees rs (snd c) (fun k r => x <- fa k r;; y <- fb k r;; cat_cell x y).
Proof.
  intros [La Ha] [Lb Hb] H. apply s_add_spec in H as [_ H].
  apply mapM2_spec in H as [Lc Hc].
  split; [lia|].
  intros k r Hr.
  destruct (Ha k r Hr) as [x [Hx Fx]]. destruct (Hb k r Hr) as [y [Hy Fy]].
  destruct (nth_error (snd c) k) as [z|] eqn:Hz.
  - destruct (Hc k z Hz) as [x' [y' [Hx' [Hy' Hxy]]]].
    rewrite Hx in Hx'; injection Hx' as <-. rewrite Hy in Hy'; injection Hy' as <-.
    exists z. rewrite Fx, Fy. auto.
  - exfalso. apply nth_error_None in Hz.
    assert (k < length rs) by (apply nth_error_Some; congruence). lia.
Qed.

Lemma agrees_map {A B} rs (col : list A) f (g : A -> B) :
  agrees rs col f ->
  agrees rs (map g col) (fun k r => x <- f k r;; Ok (g x)).
Proof.
  intros [L H]. split; [rewrite length_map; exact L|].
  intros k r Hr. destruct (H k r Hr) as [x [Hx Fx]].
  exists (g x). rewrite nth_error_map, Hx, Fx. auto.
Qed.

Lemma agrees_setitem {A} df name s f (col : list A) g :
  agrees (rows df) (snd s) f ->
  agrees (rows (setitem df name s)) col g ->
  agrees (rows df) col
    (fun k r => v <- f k r;; g k (row_setitem (columns df) name v r)).
Proof.
  intros [Lv Hv] [Lc Hc].
  rewrite length_rows_setitem in Lc by exact Lv.
  split; [exact Lc|].
  intros k r Hr. destruct (Hv k r Hr) as [v [Hnv Fv]].
  destruct (Hc k _ (nth_error_rows_setitem df name s k r v Hr Hnv)) as [x [Hx Gx]].
  exists x. rewrite Fv. auto.
Qed.

Lemma replace_comma_with_dot_in_col_spec df name col :
  replace_comma_with_dot_in_col df name = Ok col ->
  (exists j, positions name (columns df) 0 = [j]) /\
  agrees (rows df) col
    (fun _ r => x <- row_getitem (columns df) name r;; Ok (str_replace_cell x)).
Proof.
  unfold replace_comma_with_dot_in_col.
  destruct (getitem df name) as [s|e] eqn:Hg; simpl; [|discriminate].
  destruct (fst s); [|discriminate].
  intros H; injection H as <-. split.
  - apply getitem_spec in Hg as [j [Hj _]]. eauto.
  - apply agrees_map, (agrees_getitem _ _ _ Hg).
Qed.

Lemma get_second_part_of_def_spec df lat long b :
  get_second_part_of_def df lat long = Ok b ->
  agrees (rows df) (snd b) (fun _ r => row_second_part (columns df) lat long r).
Proof.
  unfold get_second_part_of_def.
  destruct (getitem df long) as [lo|e] eqn:Hlo; simpl; [|discriminate].
  destruct (s_add _ lo) as [s1|e] eqn:H1; simpl; [|discriminate].
  destruct (s_add s1 _) as [s2|e] eqn:H2; simpl; [|discriminate].
  destruct (getitem df lat) as [la|e] eqn:Hla; simpl; [|discriminate].
  destruct (s_add s2 la) as [s3|e] eqn:H3; simpl; [|discriminate].
  intros H4.
  pose proof (agrees_getitem _ _ _ Hlo) as Alo.
  pose proof (agrees_getitem _ _ _ Hla) as Ala.
  pose proof (agrees_s_add _ _ _ _ _ _ (agrees_lit (rows df) " = ee.Geometry.Point([") Alo H1) as A1.
  pose proof (agrees_s_add _ _ _ _ _ _ A1 (agrees_lit (rows df) ",") H2) as A2.
  pose proof (agrees_s_add _ _ _ _ _ _ A2 Ala H3) as A3.
  pose proof (agrees_s_add _ _ _ _ _ _ A3 (agrees_lit (rows df) "]);") H4) as [L A4].
  split; [exact L|].
  intros k r Hr. destruct (A4 k r Hr) as [x [Hx Fx]].
  exists x. split; [exact Hx|].
  rewrite <- Fx. unfold row_second_part. split_binds.
Qed.

Lemma agrees_index rs :
  agrees rs (snd (list_series (map (fun i => Str (str_of_nat i)) (seq 0 (length rs)))))
    (fun k _ => Ok (Str (str_of_nat k))).
Proof.
  unfold list_series. cbn [snd].
  split; [rewrite length_map, length_seq; reflexivity|].
  intros k r Hr. exists (Str (str_of_nat k)). split; [|reflexivity].
  assert (k < length rs) by (apply nth_error_Some; congruence).
  rewrite nth_error_map, nth_error_seq.
  destruct (Nat.ltb_spec k (length rs)); [reflexivity | lia].
Qed.

Lemma iloc_row_in df i hdr : iloc_row df i = Ok hdr -> In hdr (rows df).
Proof.
  unfold iloc_row. destruct (_ && _)%Z; [|discriminate].
  destruct (nth_error _ _) eqn:E; [|discriminate].
  intros H; injection H as <-. eapply nth_error_In; eauto.
Qed.

Lemma rect_after_header df0 n hdr :
  rect df0 -> In hdr (rows df0) -> rect (drop_rows n (set_columns df0 hdr)).
Proof.
  intros R Hin r Hr. simpl in Hr |- *. apply In_skipn_in in Hr.
  rewrite (R r Hr), (R hdr Hin). reflexivity.
Qed.

(** Case analysis on the row lookups of a goal, in order. *)
Ltac row_steps :=
  unfold bind;
  repeat (cbv beta iota;
          match goal with
          | |- context [row_getitem ?a ?b ?c] => destruct (row_getitem a b c)
          end);
  reflexivity.

(** The column-wise pipeline agrees with [row_def] on every row after the
    header, and [df['points_def']] then selects, for each row, its value
    once per column so labelled. *)
Lemma points_def_rows cfg df0 df :
  points_def cfg df0 = Ok df ->
  exists hdr (d : series),
    iloc_row df0 (Z.of_nat (num_rows_before_header cfg) - 1) = Ok hdr /\
    agrees (skipn (num_rows_before_header cfg) (rows df0)) (snd d) (row_def cfg hdr) /\
    (rect df0 ->
     select df points_def_col_name =
       Ok (map (fun v => repeat v (dup_count hdr)) (snd d))).
Proof.
  unfold points_def. intros H.
  destruct (iloc_row _ _) as [hdr|e] eqn:Hh in H; cbn [bind] in H; [|discriminate].
  set (df1 := drop_rows (num_rows_before_header cfg) (set_columns df0 hdr)) in *.
  destruct (replace_comma_with_dot_in_col df1 _) as [la|e] eqn:Hla; cbn [bind] in H;
    [|discriminate].
  set (df2 := setitem df1 (lat_col_name cfg) (true, la)) in *.
  destruct (replace_comma_with_dot_in_col df2 _) as [lo|e] eqn:Hlo; cbn [bind] in H;
    [|discriminate].
  set (df3 := setitem df2 (long_col_name cfg) (true, lo)) in *.
  apply replace_comma_with_dot_in_col_spec in Hla as [[i Pla] Hla].
  apply replace_comma_with_dot_in_col_spec in Hlo as [[j Plo] Hlo].
  assert (Hc : columns df3 = hdr).
  { unfold df3. rewrite columns_setitem, (cols_setitem_found _ _ _ Plo).
    unfold df2. rewrite columns_setitem, (cols_setitem_found _ _ _ Pla). reflexivity. }
  assert (E1 : columns df1 = hdr) by reflexivity.
  assert (E2 : columns df2 = cols_setitem hdr (lat_col_name cfg))
    by (unfold df2; rewrite columns_setitem; reflexivity).
  assert (E3 : columns df3 =
               cols_setitem (cols_setitem hdr (lat_col_name cfg)) (long_col_name cfg))
    by (unfold df3; rewrite columns_setitem, E2; reflexivity).
  assert (R3 : rect df0 -> rect df3).
  { intros R. unfold df3, df2. apply rect_setitem, rect_setitem.
    apply rect_after_header; [exact R | exact (iloc_row_in _ _ _ Hh)]. }
  assert (L3 : length (rows df3) = length (rows df1)).
  { unfold df3. rewrite length_rows_setitem by (destruct Hlo as [L _]; simpl; rewrite L;
      unfold df2; rewrite length_rows_setitem; [reflexivity | destruct Hla as [L' _]; exact L']).
    unfold df2. rewrite length_rows_setitem; [reflexivity | destruct Hla as [L' _]; exact L']. }
  exists hdr. unfold row_def.
  destruct (points_col_name cfg) as [p|] eqn:Hp.
  - destruct (getitem df3 p) as [pc|e] eqn:Hpc; cbn [bind] in H; [|discriminate].
    destruct (s_add _ pc) as [a|e] eqn:Ha; cbn [bind] in H; [|discriminate].
    destruct (get_second_part_of_def df3 _ _) as [b|e] eqn:Hb; cbn [bind] in H;
      [|discriminate].
    destruct (s_add a b) as [d|e] eqn:Hd; cbn [bind] in H; [|discriminate].
    injection H as <-. exists d.
    pose proof (agrees_s_add _ _ _ _ _ _ (agrees_lit (rows df3) "var ")
                  (agrees_getitem _ _ _ Hpc) Ha) as A.
    pose proof (agrees_s_add _ _ _ _ _ _ A
                  (get_second_part_of_def_spec _ _ _ _ Hb) Hd) as D.
    pose proof (agrees_setitem df1 _ (true, la) _ _ _ Hla
                  (agrees_setitem df2 _ (true, lo) _ _ _ Hlo D)) as [L F].
    split; [exact Hh|]. split.
    + split; [exact L|].
      intros k r Hr. destruct (F k r Hr) as [x [Hx Fx]].
      exists x; split; [exact Hx|].
      rewrite <- Fx. rewrite E3, E2, E1. row_steps.
    + intros R. rewrite select_setitem.
      * rewrite Hc. reflexivity.
      * exact (R3 R).
      * rewrite L3, L. reflexivity.
  - set (df4 := setitem df3 "index"
      (list_series (map (fun i => Str (str_of_nat i)) (seq 0 (length (rows df3)))))) in *.
    destruct (getitem df4 "index") as [ix|e] eqn:Hix; cbn [bind] in H; [|discriminate].
    destruct (s_add _ ix) as [a|e] eqn:Ha; cbn [bind] in H; [|discriminate].
    destruct (get_second_part_of_def df4 _ _) as [b|e] eqn:Hb; cbn [bind] in H;
      [|discriminate].
    destruct (s_add a b) as [d|e] eqn:Hd; cbn [bind] in H; [|discriminate].
    injection H as <-. exists d.
    assert (L4 : length (rows df4) = length (rows df3)).
    { apply length_rows_setitem. unfold list_series. cbn [snd].
      rewrite length_map, length_seq. reflexivity. }
    pose proof (agrees_lit (rows df4) "var point_") as Lt. rewrite L4 in Lt.
    pose proof (agrees_s_add _ _ _ _ _ _ Lt (agrees_getitem _ _ _ Hix) Ha) as A.
    pose proof (get_second_part_of_def_spec _ _ _ _ Hb) as B.
    pose proof (agrees_s_add _ _ _ _ _ _ A B Hd) as D.
    pose proof (agrees_setitem df1 _ (true, la) _ _ _ Hla
                  (agrees_setitem df2 _ (true, lo) _ _ _ Hlo
                     (agrees_setitem df3 _ _ _ _ _ (agrees_index (rows df3)) D)))
      as [L F].
    split; [exact Hh|]. split.
    + split; [exact L|].
      intros k r Hr. destruct (F k r Hr) as [x [Hx Fx]].
      exists x; split; [exact Hx|].
      rewrite <- Fx. unfold df4. rewrite columns_setitem, E3, E2, E1.
      row_steps.
    + intros R. assert (Ld : length (snd d) = length (rows df4)) by (rewrite L4, L3; exact L).
      unfold df4 in Ld |- *. rewrite select_setitem.
      * rewrite columns_setitem, positions_cols_setitem_other by reflexivity.
        rewrite Hc. reflexivity.
      * apply rect_setitem. exact (R3 R).
      * exact Ld.
Qed.

(** *** What [read_csv] builds *)

Lemma existsb_false_In {A} (f : A -> bool) l x :
  existsb f l = false -> In x l -> f x = false.
Proof.
  intros H Hx. destruct (f x) eqn:E; [|reflexivity].
  rewrite <- H. symmetry. apply existsb_exists. eauto.
Qed.

Lemma read_csv_spec sep txt df :
  read_csv sep txt = Ok df ->
  (sep =? nl)%char = false /\
  exists hd data,
    records sep txt = (hd :: data, false) /\
    forallb utf8_field hd = true /\
    (forall r, In r data -> length r <= implicit_width hd data) /\
    forallb (forallb utf8_field) data = true /\
    df = build_frame hd data.
Proof.
  unfold read_csv. destruct (sep =? nl)%char; [discriminate|].
  destruct (records sep txt) as [[|hd data] q]; [destruct q; discriminate|].
  destruct q; simpl.
  { destruct data; simpl; [discriminate|]. destruct (negb _); discriminate. }
  destruct (forallb utf8_field hd) eqn:E2; simpl; [|discriminate].
  destruct (existsb _ data) eqn:E3; [discriminate|].
  destruct (forallb (forallb utf8_field) data) eqn:E4; simpl; [|discriminate].
  intros H; injection H as <-. split; [reflexivity|]. exists hd, data.
  split; [reflexivity|]. split; [first [reflexivity | assumption]|].
  split; [|split; [first [reflexivity | assumption] | reflexivity]].
  intros r Hr. apply (existsb_false_In _ _ _ E3) in Hr. apply Nat.ltb_ge. exact Hr.
Qed.

Lemma length_pad_row w r : length r <= w -> length (pad_row w r) = w.
Proof. intros H. unfold pad_row. rewrite length_app, repeat_length. lia. Qed.

Lemma nth_error_coerce_row ks r j :
  nth_error (coerce_row ks r) j =
  match nth_error ks j, nth_error r j with
  | Some k, Some c => Some (coerce k c)
  | _, _ => None
  end.
Proof.
  unfold coerce_row. rewrite nth_error_map, nth_error_combine.
  destruct (nth_error ks j), (nth_error r j); reflexivity.
Qed.

Lemma length_coerce_row ks r : length (coerce_row ks r) = Nat.min (length ks) (length r).
Proof. unfold coerce_row. rewrite length_map, length_combine. reflexivity. Qed.

Lemma data_cells_width hd data r :
  (forall r, In r data -> length r <= implicit_width hd data) ->
  In r (data_cells hd data) -> length r = length hd.
Proof.
  intros Hw Hr. unfold data_cells in Hr. apply in_map_iff in Hr as [r0 [<- Hr0]].
  assert (Hge : length hd <= implicit_width hd data)
    by (unfold implicit_width; destruct data; lia).
  rewrite length_skipn, length_pad_row; [lia|].
  rewrite length_map. exact (Hw r0 Hr0).
Qed.

Lemma data_cells_strish hd data r c :
  In r (data_cells hd data) -> In c r -> strish c = true.
Proof.
  intros Hr Hc. unfold data_cells in Hr. apply in_map_iff in Hr as [r0 [<- _]].
  apply In_skipn_in in Hc. unfold pad_row in Hc. apply in_app_or in Hc as [Hc|Hc].
  - apply in_map_iff in Hc as [x [<- _]]. unfold to_cell. destruct (is_na x); reflexivity.
  - apply repeat_spec in Hc. subst. reflexivity.
Qed.

Lemma coerce_str k c s : coerce k c = Str s -> k = Text /\ c = Str s.
Proof. destruct k, c; simpl; intros H; try discriminate; auto. Qed.

Lemma loaded_build_frame hd data :
  (forall r, In r data -> length r <= implicit_width hd data) ->
  loaded (build_frame hd data).
Proof.
  intros Hw. unfold build_frame.
  set (raw := data_cells hd data).
  set (ks := map (fun j => col_kind (column_of j raw)) (seq 0 (length hd))).
  assert (Lk : length ks = length hd) by (unfold ks; rewrite length_map, length_seq; reflexivity).
  split; [|split].
  - intros r j s Hr Hj. simpl in Hr |- *.
    apply in_map_iff in Hr as [r0 [<- Hr0]].
    rewrite nth_error_coerce_row in Hj.
    destruct (nth_error ks j) as [k|] eqn:Ek; [|discriminate].
    destruct (nth_error r0 j) as [c|] eqn:Ec; [|discriminate].
    injection Hj as Hj. apply coerce_str in Hj as [-> ->].
    split.
    + assert (Ed : nth_error (map kind_object ks) j = Some true)
        by (rewrite nth_error_map, Ek; reflexivity).
      exact (nth_error_nth _ _ _ Ed).
    + intros r' Hr'. apply in_map_iff in Hr' as [r1 [<- Hr1]].
      destruct (nth_error (coerce_row ks r1) j) as [c'|] eqn:E'.
      * rewrite (nth_error_nth _ _ _ E'). rewrite nth_error_coerce_row, Ek in E'.
        destruct (nth_error r1 j) as [c1|] eqn:Ec1; [|discriminate].
        injection E' as <-. simpl.
        exact (data_cells_strish _ _ _ _ Hr1 (nth_error_In _ _ Ec1)).
      * apply nth_error_None in E'. rewrite nth_overflow by exact E'. reflexivity.
  - intros r Hr. simpl in Hr |- *. apply in_map_iff in Hr as [r0 [<- Hr0]].
    rewrite length_coerce_row, (data_cells_width _ _ _ Hw Hr0), Lk, length_map. lia.
  - simpl. rewrite !length_map. exact Lk.
Qed.

Lemma read_csv_loaded sep txt df : read_csv sep txt = Ok df -> loaded df.
Proof.
  intros H. apply read_csv_spec in H as (_ & hd & data & _ & _ & Hw & _ & ->).
  exact (loaded_build_frame _ _ Hw).
Qed.

Lemma read_csv_err sep txt e :
  read_csv sep txt = Err e ->
  e = ValueError \/ e = EmptyDataError \/ e = ParserError \/ e = UnicodeDecodeError.
Proof.
  unfold read_csv. destruct (sep =? nl)%char;
    [intros H; injection H as <-; auto|].
  destruct (records sep txt) as [[|hd data] q].
  - destruct q; intros H; injection H as <-; auto.
  - repeat match goal with
           | |- context [if ?b then _ else _] => destruct b
           end; intros H; try discriminate; injection H as <-; auto.
Qed.

(** *** The typing invariant through the pipeline *)

Lemma strish_string_like col :
  Forall (fun c => strish c = true) col -> string_like col = true.
Proof.
  unfold string_like. induction 1 as [|c col Hc _ IH]; [reflexivity|].
  destruct c; simpl in Hc |- *; [reflexivity | discriminate | exact IH].
Qed.

(** The frame after [df.columns = header] and [df.iloc[n:]] is sane. *)
Lemma sane_after_header df0 n hdr :
  loaded df0 -> In hdr (rows df0) ->
  sane (drop_rows n (set_columns df0 hdr)).
Proof.
  intros (T & R & D) Hin. unfold sane; simpl.
  split; [rewrite D, (R hdr Hin); reflexivity|]. split.
  - intros r Hr. apply In_skipn_in in Hr. rewrite (R r Hr), (R hdr Hin). reflexivity.
  - intros j s Hj. destruct (T hdr j s Hin Hj) as [Hf Hr]. split; [exact Hf|].
    intros r Hr'. apply In_skipn_in in Hr'. exact (Hr r Hr').
Qed.

Lemma good_bind {A B} (P : A -> Prop) (Q : B -> Prop) m (k : A -> result B) :
  good P m -> (forall a, P a -> good Q (k a)) -> good Q (bind m k).
Proof. destruct m as [a|e]; simpl; auto. Qed.

Lemma getitem_err df name e : getitem df name = Err e -> lookup_error e.
Proof.
  unfold getitem. destruct (positions name (columns df) 0) as [|j [|j' js]];
    intros H; try discriminate; injection H as <-; exists name; auto.
Qed.

Lemma good_getitem df name : sane df -> good ser_ok (getitem df name).
Proof.
  intros (_ & _ & Hc). unfold getitem.
  destruct (positions name (columns df) 0) as [|j [|j' js]] eqn:P;
    simpl; try (exists name; auto; fail).
  assert (Hj : In j (positions name (columns df) 0)) by (rewrite P; left; reflexivity).
  apply positions_spec in Hj as [_ Hj]. rewrite Nat.sub_0_r in Hj.
  destruct (Hc _ _ Hj) as [Hf Hr].
  assert (F : Forall (fun c => strish c = true) (column_of j (rows df)))
    by (unfold column_of; apply Forall_map, Forall_forall; exact Hr).
  split; [|exact F]. simpl. rewrite Hf, (strish_string_like _ F). reflexivity.
Qed.

Lemma mapM2_cat_strish xs ys :
  Forall (fun c => strish c = true) xs -> Forall (fun c => strish c = true) ys ->
  exists zs, mapM2 cat_cell xs ys = Ok zs /\ Forall (fun c => strish c = true) zs.
Proof.
  revert ys; induction xs as [|x xs IH]; intros [|y ys] Hx Hy; simpl;
    try (exists []; auto; fail).
  inversion Hx as [|? ? Hx1 Hx2]; inversion Hy as [|? ? Hy1 Hy2]; subst.
  destruct (IH ys Hx2 Hy2) as [zs [Hz Fz]].
  destruct x, y; simpl in Hx1, Hy1; try discriminate; simpl; rewrite Hz; simpl;
    eexists; split; try reflexivity; constructor; auto.
Qed.

Lemma good_s_add a b : ser_ok a -> ser_ok b -> good ser_ok (s_add a b).
Proof.
  intros [Fa Ca] [Fb Cb]. unfold s_add. rewrite Fa, Fb. simpl.
  destruct (mapM2_cat_strish _ _ Ca Cb) as [zs [-> Fz]]. simpl. split; auto.
Qed.

Lemma ser_ok_lit s n : ser_ok (lit s n).
Proof.
  split; [reflexivity|]. apply Forall_forall. intros x Hx.
  apply repeat_spec in Hx. subst. reflexivity.
Qed.

Lemma strish_str_replace_cell c : strish (str_replace_cell c) = true.
Proof. destruct c; reflexivity. Qed.

Lemma good_replace df name :
  sane df -> good (Forall (fun c => strish c = true))
               (replace_comma_with_dot_in_col df name).
Proof.
  intros S. unfold replace_comma_with_dot_in_col.
  apply good_bind with (P := ser_ok); [apply good_getitem; exact S|].
  intros [b col] [Hb _]. simpl in Hb. subst b. simpl.
  apply Forall_forall. intros x Hx. apply in_map_iff in Hx as [c [<- _]].
  apply strish_str_replace_cell.
Qed.

Lemma good_second_part df lat long :
  sane df -> good ser_ok (get_second_part_of_def df lat long).
Proof.
  intros S. unfold get_second_part_of_def.
  repeat (apply good_bind with (P := ser_ok);
          [first [apply good_getitem; exact S
                 | apply good_s_add; auto using ser_ok_lit] | intros ? ?]).
  apply good_s_add; auto using ser_ok_lit.
Qed.

Lemma sane_setitem df name s :
  sane df -> ser_ok s -> sane (setitem df name s).
Proof.
  intros (Hd & Hl & Hc) [Hf0 Hv]. destruct s as [f vals]. simpl in Hf0, Hv. subst f.
  unfold setitem.
  destruct (positions name (columns df) 0) as [|j js] eqn:P; unfold sane; simpl.
  - split; [rewrite !length_app, Hd; reflexivity|]. split.
    + intros r' Hr'. apply in_map_iff in Hr' as [[r v] [<- Hrv]].
      rewrite !length_app, (Hl r (in_combine_l _ _ _ _ Hrv)). reflexivity.
    + intros k s Hk.
      destruct (Nat.ltb_spec k (length (columns df))) as [Hlt|Hge].
      * rewrite nth_error_app1 in Hk by exact Hlt.
        destruct (Hc _ _ Hk) as [Hf Hr]. split.
        -- rewrite app_nth1 by lia. exact Hf.
        -- intros r' Hr'. apply in_map_iff in Hr' as [[r v] [<- Hrv]].
           rewrite app_nth1 by (rewrite (Hl r (in_combine_l _ _ _ _ Hrv)); exact Hlt).
           exact (Hr r (in_combine_l _ _ _ _ Hrv)).
      * pose proof (nth_error_Some (columns df ++ [Str name])%list k) as Hs.
        rewrite Hk, length_app in Hs. simpl in Hs.
        assert (k = length (columns df)) as -> by (assert (k < length (columns df) + 1)
          by (apply Hs; discriminate); lia).
        split.
        -- rewrite app_nth2 by lia. rewrite Hd, Nat.sub_diag. reflexivity.
        -- intros r' Hr'. apply in_map_iff in Hr' as [[r v] [<- Hrv]].
           rewrite app_nth2 by (rewrite (Hl r (in_combine_l _ _ _ _ Hrv)); lia).
           rewrite (Hl r (in_combine_l _ _ _ _ Hrv)), Nat.sub_diag. simpl.
           exact (proj1 (Forall_forall _ _) Hv v (in_combine_r _ _ _ _ Hrv)).
  - split; [rewrite length_flag_at; exact Hd|]. split.
    + intros r' Hr'. apply in_map_iff in Hr' as [[r v] [<- Hrv]].
      rewrite length_set_at. exact (Hl r (in_combine_l _ _ _ _ Hrv)).
    + intros k s Hk.
      assert (Hlt : k < length (columns df))
        by (apply nth_error_Some; rewrite Hk; discriminate).
      destruct (Hc _ _ Hk) as [Hf Hr]. split.
      * rewrite nth_flag_at by lia. rewrite Hf. destruct (existsb _ _); reflexivity.
      * intros r' Hr'. apply in_map_iff in Hr' as [[r v] [<- Hrv]].
        rewrite nth_set_at by (rewrite (Hl r (in_combine_l _ _ _ _ Hrv)); exact Hlt).
        destruct (existsb _ _).
        -- exact (proj1 (Forall_forall _ _) Hv v (in_combine_r _ _ _ _ Hrv)).
        -- exact (Hr r (in_combine_l _ _ _ _ Hrv)).
Qed.

(** A column assigned from a Series that string operations refuse is
    refused when read back. *)
Lemma getitem_setitem_flag df name vs s :
  sane df -> getitem (setitem df name (false, vs)) name = Ok s -> fst s = false.
Proof.
  intros (Hd & _ & _). unfold setitem.
  destruct (positions name (columns df) 0) as [|j js] eqn:P.
  - unfold getitem. simpl. rewrite positions_app, P, label_is_str. simpl.
    intros H; injection H as <-. simpl.
    rewrite app_nth2 by lia. rewrite Hd, Nat.sub_diag. reflexivity.
  - unfold getitem. simpl. rewrite P.
    destruct js as [|j' js]; [|discriminate]. intros H; injection H as <-. simpl.
    assert (Hj : j < length (columns df)) by (apply (positions_lt name); rewrite P; left; reflexivity).
    rewrite nth_flag_at by lia. simpl. rewrite Nat.eqb_refl. reflexivity.
Qed.

Lemma ser_ok_list_series vs :
  vs <> [] -> Forall (fun c => strish c = true) vs -> ser_ok (list_series vs).
Proof. destruct vs as [|v vs]; [contradiction|]. intros _ H. split; [reflexivity | exact H]. Qed.

Lemma iloc_row_err df i e : iloc_row df i = Err e -> e = IndexError.
Proof.
  unfold iloc_row. destruct (_ && _)%Z; [destruct (nth_error _ _)|];
    intros H; first [discriminate | injection H as <-; reflexivity].
Qed.

Lemma iloc_row_bound df n hdr :
  iloc_row df (Z.of_nat n - 1) = Ok hdr ->
  (n = 0 /\ 0 < length (rows df)) \/ (0 < n /\ n <= length (rows df)).
Proof.
  unfold iloc_row. intros H.
  destruct ((Z.of_nat n - 1 <? 0)%Z) eqn:Hn;
    destruct ((0 <=? _) && (_ <? _))%Z eqn:Hb; try discriminate;
    apply andb_true_iff in Hb as [H1 H2]; apply Z.leb_le in H1; apply Z.ltb_lt in H2;
    apply Z.ltb_lt in Hn || apply Z.ltb_ge in Hn; lia.
Qed.

Lemma iloc_row_out df i :
  (Z.of_nat (length (rows df)) <= i \/ i < - Z.of_nat (length (rows df)))%Z ->
  iloc_row df i = Err IndexError.
Proof.
  intros H. unfold iloc_row. destruct (Z.ltb_spec i 0) as [Hi|Hi];
  match goal with
  | |- (if ?b then _ else _) = _ =>
      destruct b eqn:E; [|reflexivity];
      apply andb_true_iff in E as [E1 E2];
      apply Z.leb_le in E1; apply Z.ltb_lt in E2; lia
  end.
Qed.

(** The errors [points_def] raises on a frame read by [read_csv]: the
    header offset is out of range, a looked-up name is missing or
    repeated, or, without a label column and with no row after the header,
    [df['index'] = []] makes a float column that [+] refuses. *)
Lemma points_def_err cfg df0 e :
  loaded df0 -> points_def cfg df0 = Err e ->
  e = IndexError \/ lookup_error e \/
  (e = TypeError /\ points_col_name cfg = None /\
   length (rows df0) = num_rows_before_header cfg).
Proof.
  intros Ld. unfold points_def. cbv zeta.
  destruct (iloc_row df0 _) as [hdr|e0] eqn:Hh; cbn [bind];
    [|intros H; injection H as <-; left; exact (iloc_row_err _ _ _ Hh)].
  set (df1 := drop_rows (num_rows_before_header cfg) (set_columns df0 hdr)).
  assert (S1 : sane df1) by (apply sane_after_header; [exact Ld | exact (iloc_row_in _ _ _ Hh)]).
  destruct (replace_comma_with_dot_in_col df1 _) as [la|e0] eqn:Hla; cbn [bind];
    [|intros H; injection H as <-; right; left;
      pose proof (good_replace df1 (lat_col_name cfg) S1) as G; rewrite Hla in G; exact G].
  pose proof (good_replace df1 (lat_col_name cfg) S1) as Gla. rewrite Hla in Gla.
  set (df2 := setitem df1 (lat_col_name cfg) (true, la)).
  assert (S2 : sane df2) by (apply sane_setitem; [exact S1 | split; [reflexivity | exact Gla]]).
  destruct (replace_comma_with_dot_in_col df2 _) as [lo|e0] eqn:Hlo; cbn [bind];
    [|intros H; injection H as <-; right; left;
      pose proof (good_replace df2 (long_col_name cfg) S2) as G; rewrite Hlo in G; exact G].
  pose proof (good_replace df2 (long_col_name cfg) S2) as Glo. rewrite Hlo in Glo.
  set (df3 := setitem df2 (long_col_name cfg) (true, lo)).
  assert (S3 : sane df3) by (apply sane_setitem; [exact S2 | split; [reflexivity | exact Glo]]).
  assert (L3 : length (rows df3) = length (rows df0) - num_rows_before_header cfg).
  { apply replace_comma_with_dot_in_col_spec in Hla as [_ [La _]].
    apply replace_comma_with_dot_in_col_spec in Hlo as [_ [Lo _]].
    unfold df3. rewrite length_rows_setitem by exact Lo.
    unfold df2. rewrite length_rows_setitem by exact La.
    simpl. apply length_skipn. }
  intros H.
  enough (G : good (A := frame) (fun _ => True) (Err e) \/
              (e = TypeError /\ points_col_name cfg = None /\
               length (rows df0) = num_rows_before_header cfg))
    by (destruct G as [G|G]; [right; left; exact G | right; right; exact G]).
  revert H. destruct (points_col_name cfg) as [p|] eqn:Hp; intros H.
  - left. rewrite <- H.
    apply good_bind with (P := ser_ok); [apply good_getitem; exact S3|intros pc Hpc].
    apply good_bind with (P := ser_ok);
      [apply good_s_add; auto using ser_ok_lit|intros a Ha].
    apply good_bind with (P := ser_ok); [apply good_second_part; exact S3|intros b Hb].
    apply good_bind with (P := ser_ok); [apply good_s_add; auto|intros; exact I].
  - revert H. destruct (length (rows df3)) as [|len] eqn:L0; intros H.
    + change (list_series (map (fun i => Str (str_of_nat i)) (seq 0 0)))
        with (false, @nil cell) in H.
      destruct (getitem (setitem df3 "index" (false, [])) "index") as [ix|e0] eqn:Hix;
        cbn [bind] in H.
      * pose proof (getitem_setitem_flag _ _ _ _ S3 Hix) as Fx.
        destruct ix as [f vs]. simpl in Fx. subst f.
        assert (E : s_add (lit "var point_" 0) (false, vs) = Err TypeError) by reflexivity.
        rewrite E in H. cbn [bind] in H. injection H as <-. right.
        split; [reflexivity|]. split; [reflexivity|].
        pose proof (iloc_row_bound _ _ _ Hh). lia.
      * injection H as <-. left. exact (getitem_err _ _ _ Hix).
    + left. rewrite <- H.
      match goal with |- context [setitem ?d "index" ?v] =>
        assert (S4 : sane (setitem d "index" v))
      end.
      { apply sane_setitem; [exact S3|]. apply ser_ok_list_series.
        - simpl. discriminate.
        - apply Forall_forall. intros x Hx.
          apply in_map_iff in Hx as [i [<- _]]. reflexivity. }
      apply good_bind with (P := ser_ok); [apply good_getitem; exact S4|intros ix Hix].
      apply good_bind with (P := ser_ok);
        [apply good_s_add; auto using ser_ok_lit|intros a Ha].
      apply good_bind with (P := ser_ok); [apply good_second_part; exact S4|intros b Hb].
      apply good_bind with (P := ser_ok); [apply good_s_add; auto|intros; exact I].
Qed.

(** *** Rows *)

(** After [df[name] = v], [df[name]] reads [v] back. *)
Lemma row_getitem_setitem cols name v r x :
  length r = length cols ->
  row_getitem (cols_setitem cols name) name (row_setitem cols name v r) = Ok x ->
  x = v.
Proof.
  intros Hlen. unfold cols_setitem, row_setitem.
  destruct (positions name cols 0) as [|j js] eqn:Hp.
  - unfold row_getitem. rewrite positions_app, Hp, label_is_str. simpl.
    intros H; injection H as <-.
    rewrite app_nth2 by lia. rewrite Hlen, Nat.sub_diag. reflexivity.
  - unfold row_getitem. rewrite Hp. destruct js; [|discriminate].
    intros H; injection H as <-.
    assert (Hj : In j (positions name cols 0)) by (rewrite Hp; left; reflexivity).
    apply positions_spec in Hj as [_ Hj]. rewrite Nat.sub_0_r in Hj.
    assert (j < length r) by (rewrite Hlen; apply nth_error_Some; congruence).
    rewrite nth_set_at by exact H. simpl. rewrite Nat.eqb_refl. reflexivity.
Qed.

Lemma length_row_setitem cols name v r :
  length r = length cols ->
  length (row_setitem cols name v r) = length (cols_setitem cols name).
Proof.
  intros H. unfold row_setitem, cols_setitem.
  destruct (positions name cols 0).
  - rewrite !length_app. simpl. lia.
  - rewrite length_set_at. exact H.
Qed.

Lemma cat_cell_str a b s :
  cat_cell a b = Ok (Str s) -> exists x y, a = Str x /\ b = Str y /\ s = x ++ y.
Proof.
  destruct a, b; simpl; intros H; try discriminate; injection H as <-; eauto.
Qed.

Lemma cat_cell_prefix p c a :
  cat_cell (Str p) c = Ok a -> a = NaN \/ exists s, a = Str (p ++ s).
Proof. destruct c; simpl; intros H; try discriminate; injection H as <-; eauto. Qed.

Lemma cat_cell_keep p a b z :
  (a = NaN \/ exists s, a = Str (p ++ s)) -> cat_cell a b = Ok z ->
  z = NaN \/ exists s, z = Str (p ++ s).
Proof.
  intros [-> | [s ->]]; destruct b; simpl; intros H; try discriminate;
    injection H as <-; auto.
  right. exists (s ++ s0). rewrite string_app_assoc. reflexivity.
Qed.

Lemma row_second_part_str cols lat long r s :
  row_second_part cols lat long r = Ok (Str s) ->
  exists lo la,
    row_getitem cols long r = Ok (Str lo) /\ row_getitem cols lat r = Ok (Str la) /\
    s = " = ee.Geometry.Point([" ++ lo ++ "," ++ la ++ "]);".
Proof.
  unfold row_second_part. intros H4.
  destruct (row_getitem cols long r) as [lo|e]; cbn [bind] in H4; [|discriminate].
  destruct (cat_cell (Str " = ee.Geometry.Point([") lo) as [s1|e] eqn:H1;
    cbn [bind] in H4; [|discriminate].
  destruct (cat_cell s1 (Str ",")) as [s2|e] eqn:H2; cbn [bind] in H4; [|discriminate].
  destruct (row_getitem cols lat r) as [la|e]; cbn [bind] in H4; [|discriminate].
  destruct (cat_cell s2 la) as [s3|e] eqn:H3; cbn [bind] in H4; [|discriminate].
  apply cat_cell_str in H4 as [x3 [y3 [-> [Hy3 ->]]]]. injection Hy3 as <-.
  apply cat_cell_str in H3 as [x2 [y2 [-> [-> ->]]]].
  apply cat_cell_str in H2 as [x1 [y1 [-> [Hy1 ->]]]]. injection Hy1 as <-.
  apply cat_cell_str in H1 as [x0 [y0 [Hx0 [-> ->]]]]. injection Hx0 as <-.
  exists y0, y2. split; [reflexivity|]. split; [reflexivity|].
  rewrite !string_app_assoc. reflexivity.
Qed.

(** A point definition is missing or starts with [var ]. *)
Lemma row_def_shape cfg hdr k r z :
  row_def cfg hdr k r = Ok z -> z = NaN \/ exists s, z = Str ("var " ++ s).
Proof.
  unfold row_def. cbv zeta. intros H.
  destruct (points_col_name cfg);
  repeat (unfold bind in H; cbv beta iota in H;
          match type of H with
          | match ?m with Ok _ => _ | Err _ => _ end = _ =>
              destruct m eqn:?; [|discriminate]
          end);
  match goal with Ha : cat_cell (Str ?p) _ = Ok _ |- _ =>
    destruct (cat_cell_prefix _ _ _ Ha) as [Ea | [t Ea]]; subst
  end;
  [ exact (cat_cell_keep "var " _ _ _ (or_introl eq_refl) H)
  | exact (cat_cell_keep "var " _ _ _ (or_intror (ex_intro _ t eq_refl)) H)
  | exact (cat_cell_keep "var " _ _ _ (or_introl eq_refl) H)
  | exact (cat_cell_keep "var " _ _ _ (or_intror (ex_intro _ ("point_" ++ t) eq_refl)) H) ].
Qed.

Lemma agrees_forall {A} rs (col : list A) f (P : A -> Prop) :
  agrees rs col f -> (forall k r x, f k r = Ok x -> P x) -> Forall P col.
Proof.
  intros [L H] HP. apply Forall_forall. intros x Hx.
  apply In_nth_error in Hx as [k Hk].
  assert (Hr : k < length rs) by (rewrite <- L; apply nth_error_Some; congruence).
  apply nth_error_Some in Hr. destruct (nth_error rs k) as [r|] eqn:Er; [|contradiction].
  destruct (H k r Er) as [x' [Hx' Fx]]. rewrite Hk in Hx'. injection Hx' as <-.
  exact (HP _ _ _ Fx).
Qed.

(** *** The writer *)

Lemma concat_lines_app a b : concat_lines (a ++ b) = concat_lines a ++ concat_lines b.
Proof.
  unfold concat_lines. induction a as [|l a IH]; [reflexivity|].
  cbn [app fold_right]. rewrite IH, !string_app_assoc. reflexivity.
Qed.

Lemma join_fields_concat fs t :
  fs <> [] -> join_fields fs ++ newline ++ t = concat_lines fs ++ t.
Proof.
  induction fs as [|f fs IH]; intros H; [contradiction|].
  destruct fs as [|f' fs'].
  - unfold concat_lines. simpl. rewrite string_app_assoc. reflexivity.
  - change (join_fields (f :: f' :: fs')) with (escape f ++ newline ++ join_fields (f' :: fs')).
    rewrite !string_app_assoc, IH by discriminate.
    unfold concat_lines. cbn [fold_right]. rewrite !string_app_assoc. reflexivity.
Qed.

(** The writer writes the records up to the first one made of a single
    empty field, where it stops with a csv error. *)
Lemma write_rows_spec recs :
  Forall (fun r => r <> []) recs ->
  exists k, k <= length recs /\
    fst (write_rows recs) = concat_lines (flat_map (map cell_text) (firstn k recs)) /\
    Forall (fun r => single_empty_field (map cell_text r) = false) (firstn k recs) /\
    (snd (write_rows recs) = None /\ k = length recs \/
     snd (write_rows recs) = Some CsvError /\
     exists r, nth_error recs k = Some r /\ single_empty_field (map cell_text r) = true).
Proof.
  induction 1 as [|r recs Hr _ IH].
  - exists 0. simpl. split; [lia|]. split; [reflexivity|]. split; [constructor|]. auto.
  - simpl. destruct (single_empty_field (map cell_text r)) eqn:Se.
    + exists 0. split; [lia|]. split; [reflexivity|]. split; [constructor|].
      right. split; [reflexivity|]. exists r. auto.
    + destruct IH as (k & Hk & Ht & Hf & He).
      destruct (write_rows recs) as [t e]. simpl in Ht, He |- *.
      exists (S k). split; [lia|]. split.
      * cbn [firstn flat_map]. rewrite concat_lines_app, <- Ht.
        apply join_fields_concat. destruct r; [contradiction | discriminate].
      * split; [constructor; assumption|].
        destruct He as [[-> ->] | [-> He]]; [left; auto | right; auto].
Qed.

Lemma single_empty_repeat t d :
  1 <= d -> single_empty_field (repeat t d) = (d =? 1) && String.eqb t "".
Proof. intros H. destruct d as [|[|d]]; [lia | reflexivity | reflexivity]. Qed.

Lemma flat_map_firstn_repeat (vals : list cell) d k :
  flat_map (map cell_text) (firstn k (map (fun v => repeat v d) vals)) =
  flat_map (fun v => repeat (cell_text v) d) (firstn k vals).
Proof.
  rewrite firstn_map. induction (firstn k vals) as [|v l IH]; [reflexivity|].
  simpl. rewrite IH, map_repeat. reflexivity.
Qed.

Lemma cell_text_var v :
  (v = NaN \/ exists s, v = Str ("var " ++ s)) ->
  String.eqb (cell_text v) "" = true -> v = NaN.
Proof. intros [-> | [s ->]]; simpl; [reflexivity | discriminate]. Qed.

Lemma strs_of_forall (vals : list cell) :
  Forall (fun v => exists s, v = Str s) vals -> exists lines, vals = map Str lines.
Proof.
  induction 1 as [|v vals [s ->] _ [lines ->]]; [exists []; reflexivity|].
  exists (s :: lines). reflexivity.
Qed.

Lemma flat_map_single (l : list cell) :
  flat_map (fun v => repeat (cell_text v) 1) l = map cell_text l.
Proof. induction l as [|v l IH]; simpl; [reflexivity|]. f_equal. Qed.

Lemma map_cell_text_str lines : map cell_text (map Str lines) = lines.
Proof. induction lines as [|l lines IH]; simpl; [reflexivity|]. rewrite IH. reflexivity. Qed.

Lemma In_firstn_in {A} n (l : list A) x : In x (firstn n l) -> In x l.
Proof. intros H. rewrite <- (firstn_skipn n l). apply in_or_app. left. exact H. Qed.

Lemma skipn_nth_error {A} (l : list A) k x :
  nth_error l k = Some x -> skipn k l = x :: skipn (S k) l.
Proof.
  revert k; induction l as [|y l IH]; intros [|k] H; simpl in H |- *; try discriminate.
  - injection H as ->. reflexivity.
  - apply IH. exact H.
Qed.

(** The records [df['points_def']] gives the writer: each value repeated
    once per column so labelled. *)
Lemma write_points (vals : list cell) d :
  1 <= d -> Forall (fun v => v = NaN \/ exists s, v = Str ("var " ++ s)) vals ->
  (snd (write_rows (map (fun v => repeat v d) vals)) = None ->
   fst (write_rows (map (fun v => repeat v d) vals)) =
     concat_lines (flat_map (fun v => repeat (cell_text v) d) vals) /\
   (d = 1 -> exists lines, vals = map Str lines)) /\
  (snd (write_rows (map (fun v => repeat v d) vals)) <> None ->
   d = 1 /\ snd (write_rows (map (fun v => repeat v d) vals)) = Some CsvError /\
   exists lines rest, vals = (map Str lines ++ NaN :: rest)%list /\
     fst (write_rows (map (fun v => repeat v d) vals)) = concat_lines lines).
Proof.
  intros Hd Hsh.
  assert (Hne : Forall (fun r => r <> []) (map (fun v => repeat v d) vals)).
  { apply Forall_map, Forall_forall. intros v _. destruct d; [lia | discriminate]. }
  destruct (write_rows_spec _ Hne) as (k & Hk & Ht & Hf & He).
  rewrite flat_map_firstn_repeat in Ht. rewrite length_map in Hk.
  rewrite firstn_map in Hf. apply Forall_map in Hf.
  assert (Hpre : d = 1 -> exists lines, firstn k vals = map Str lines).
  { intros ->. apply strs_of_forall. apply Forall_forall. intros v Hv.
    pose proof (proj1 (Forall_forall _ _) Hf v Hv) as Sv.
    simpl in Sv.
    pose proof (proj1 (Forall_forall _ _) Hsh v (In_firstn_in _ _ _ Hv)) as [-> | [s ->]];
      [discriminate | eauto]. }
  destruct He as [[Hn Hkn] | [Hs [r [Hr Sr]]]].
  - rewrite length_map in Hkn. subst k. rewrite firstn_all in Ht, Hpre. split; [intros _; auto|].
    intros H. contradiction.
  - split; [rewrite Hs; discriminate|]. intros _.
    rewrite nth_error_map in Hr.
    destruct (nth_error vals k) as [v|] eqn:Ev; [|discriminate]. injection Hr as <-.
    rewrite map_repeat, single_empty_repeat in Sr by exact Hd.
    apply andb_true_iff in Sr as [S1 S2]. apply Nat.eqb_eq in S1. subst d.
    pose proof (cell_text_var v (proj1 (Forall_forall _ _) Hsh v (nth_error_In _ _ Ev)) S2)
      as ->.
    split; [reflexivity|]. split; [exact Hs|].
    destruct (Hpre eq_refl) as [lines Hl]. exists lines, (skipn (S k) vals).
    split.
    + rewrite <- Hl. rewrite <- (firstn_skipn k vals) at 1. f_equal.
      rewrite (skipn_nth_error _ _ _ Ev). reflexivity.
    + rewrite Ht, flat_map_single, Hl, map_cell_text_str. reflexivity.
Qed.

Lemma select_err df name e : select df name = Err e -> lookup_error e.
Proof.
  unfold select. destruct (positions name (columns df) 0); intros H; [|discriminate].
  injection H as <-. exists name. auto.
Qed.

Lemma dup_count_pos hdr : 1 <= dup_count hdr.
Proof. unfold dup_count. lia. Qed.

(** *** Runs of [csv_to_gee_points] *)

(** A run that succeeds: the file read, the header row, the values of the
    column [points_def] row by row, and the file written. *)
Lemma success_run m cfg m' :
  csv_to_gee_points m cfg = (m', Ok tt) ->
  exists txt df0 hdr df (vals : list cell),
    m (csv_file cfg) = Some txt /\ read_csv (sep cfg) txt = Ok df0 /\
    iloc_row df0 (Z.of_nat (num_rows_before_header cfg) - 1) = Ok hdr /\
    points_def cfg df0 = Ok df /\
    agrees (skipn (num_rows_before_header cfg) (rows df0)) vals (row_def cfg hdr) /\
    select df points_def_col_name = Ok (map (fun v => repeat v (dup_count hdr)) vals) /\
    (dup_count hdr = 1 -> exists lines, vals = map Str lines) /\
    m' = update m (out_file cfg)
           (concat_lines (flat_map (fun v => repeat (cell_text v) (dup_count hdr)) vals)).
Proof.
  unfold csv_to_gee_points.
  destruct (sep cfg =? nl)%char; [intros H; inversion H|].
  destruct (m (csv_file cfg)) as [txt|] eqn:Hm; [|intros H; inversion H].
  destruct (read_csv (sep cfg) txt) as [df0|e] eqn:Hr; [|intros H; inversion H].
  destruct (points_def cfg df0) as [df|e] eqn:Hp; [|intros H; inversion H].
  destruct (points_def_rows _ _ _ Hp) as (hdr & d & Hh & Ha & Hsel).
  pose proof (read_csv_loaded _ _ _ Hr) as (_ & Rect & _).
  specialize (Hsel Rect). rewrite Hsel.
  assert (Hsh : Forall (fun v => v = NaN \/ exists s, v = Str ("var " ++ s)) (snd d))
    by (apply (agrees_forall _ _ _ _ Ha); intros k r x Hx; exact (row_def_shape _ _ _ _ _ Hx)).
  destruct (write_points (snd d) (dup_count hdr) (dup_count_pos hdr) Hsh) as [Hok _].
  destruct (write_rows (map (fun v => repeat v (dup_count hdr)) (snd d))) as [t [e|]] eqn:Hw;
    intros H; inversion H; subst.
  destruct (Hok eq_refl) as [Ht Hl]. simpl in Ht.
  exists txt, df0, hdr, df, (snd d). rewrite Ht.
  exact (conj eq_refl (conj Hr (conj Hh (conj Hp (conj Ha (conj Hsel (conj Hl eq_refl))))))).
Qed.

(** A run that fails: the file system untouched, or the writer stopped at
    a missing value after writing the lines before it. *)
Lemma run_error_cases m cfg m' e :
  csv_to_gee_points m cfg = (m', Err e) ->
  (m' = m /\
   (e = ValueError \/ e = FileNotFound \/ e = EmptyDataError \/ e = ParserError \/
    e = UnicodeDecodeError \/ e = IndexError \/ lookup_error e \/
    (e = TypeError /\ points_col_name cfg = None /\
     exists txt df0, m (csv_file cfg) = Some txt /\ read_csv (sep cfg) txt = Ok df0 /\
       length (rows df0) = num_rows_before_header cfg))) \/
  (e = CsvError /\
   exists txt df0 df lines rest,
     m (csv_file cfg) = Some txt /\ read_csv (sep cfg) txt = Ok df0 /\
     points_def cfg df0 = Ok df /\
     select df points_def_col_name = Ok (map (fun v => [v]) (map Str lines ++ NaN :: rest)%list) /\
     m' = update m (out_file cfg) (concat_lines lines)).
Proof.
  unfold csv_to_gee_points.
  destruct (sep cfg =? nl)%char; [intros H; inversion H; subst; left; auto|].
  destruct (m (csv_file cfg)) as [txt|] eqn:Hm; [|intros H; inversion H; subst; left; auto 10].
  destruct (read_csv (sep cfg) txt) as [df0|e0] eqn:Hr;
    [|intros H; inversion H; subst; left; split; [reflexivity|];
      destruct (read_csv_err _ _ _ Hr) as [-> | [-> | [-> | ->]]]; auto 10].
  pose proof (read_csv_loaded _ _ _ Hr) as Ld.
  destruct (points_def cfg df0) as [df|e0] eqn:Hp;
    [|intros H; inversion H; subst; left; split; [reflexivity|];
      destruct (points_def_err _ _ _ Ld Hp) as [-> | [Hl | (-> & Hn & Hlen)]];
      [auto 10 | auto 10 |
       do 7 right; split; [reflexivity|]; split; [exact Hn|]; exists txt, df0; auto]].
  destruct (points_def_rows _ _ _ Hp) as (hdr & d & Hh & Ha & Hsel).
  destruct Ld as (_ & Rect & _).
  specialize (Hsel Rect). rewrite Hsel.
  assert (Hsh : Forall (fun v => v = NaN \/ exists s, v = Str ("var " ++ s)) (snd d))
    by (apply (agrees_forall _ _ _ _ Ha); intros k r x Hx; exact (row_def_shape _ _ _ _ _ Hx)).
  destruct (write_points (snd d) (dup_count hdr) (dup_count_pos hdr) Hsh) as [_ Hbad].
  destruct (write_rows (map (fun v => repeat v (dup_count hdr)) (snd d))) as [t [e0|]] eqn:Hw;
    intros H; inversion H; subst.
  simpl in Hbad.
  destruct (Hbad ltac:(discriminate)) as (Hd & He & lines & rest & Hv & Ht).
  injection He as ->. right. split; [reflexivity|].
  exists txt, df0, df, lines, rest. rewrite Hsel, Hd, <- Hv, Ht. auto.
Qed.

(** *** Row lemmas, numerals and the written text *)

(** After [df[name'] = v], [df[name]] for another name reads what it read
    before. *)
Lemma row_getitem_setitem_other cols name name' v r :
  name <> name' -> length r = length cols ->
  row_getitem (cols_setitem cols name') name (row_setitem cols name' v r) =
  row_getitem cols name r.
Proof.
  intros Hne Hlen. unfold row_getitem, cols_setitem, row_setitem.
  assert (Hl : label_is name (Str name') = false)
    by (simpl; apply String.eqb_neq; congruence).
  destruct (positions name' cols 0) as [|j js] eqn:P'.
  - rewrite positions_app, Hl, app_nil_r.
    destruct (positions name cols 0) as [|j0 [|j1 js0]] eqn:P; try reflexivity.
    assert (Hj : In j0 (positions name cols 0)) by (rewrite P; left; reflexivity).
    apply positions_spec in Hj as [_ Hj]. rewrite Nat.sub_0_r in Hj.
    assert (j0 < length r) by (rewrite Hlen; apply nth_error_Some; congruence).
    rewrite app_nth1 by assumption. reflexivity.
  - destruct (positions name cols 0) as [|j0 [|j1 js0]] eqn:P; try reflexivity.
    assert (Hj : In j0 (positions name cols 0)) by (rewrite P; left; reflexivity).
    apply positions_spec in Hj as [_ Hj]. rewrite Nat.sub_0_r in Hj.
    assert (j0 < length r) by (rewrite Hlen; apply nth_error_Some; congruence).
    rewrite nth_set_at by assumption. change (0 + j0) with j0.
    destruct (existsb (Nat.eqb j0) (j :: js)) eqn:Ex; [|reflexivity].
    apply existsb_exists in Ex as [x [Hx Ex]]. apply Nat.eqb_eq in Ex. subst x.
    rewrite <- P' in Hx. apply positions_spec in Hx as [_ Hx].
    rewrite Nat.sub_0_r, Hj in Hx. injection Hx as Hx. contradiction.
Qed.

Lemma row_getitem_after cols name' v r name x :
  length r = length cols ->
  row_getitem (cols_setitem cols name') name (row_setitem cols name' v r) = Ok x ->
  (name = name' /\ x = v) \/ (name <> name' /\ row_getitem cols name r = Ok x).
Proof.
  intros Hlen H. destruct (String.eqb_spec name name') as [-> | Hne].
  - left. split; [reflexivity|]. exact (row_getitem_setitem _ _ _ _ _ Hlen H).
  - right. split; [exact Hne|]. rewrite <- H. symmetry.
    apply row_getitem_setitem_other; assumption.
Qed.

(** Where the two coordinates of an emitted line come from: the
    normalised latitude and longitude cells, or, without a label column, the
    row number when a coordinate column is named [index]. *)
Lemma row_def_coords cfg hdr k r l :
  length r = length hdr ->
  row_def cfg hdr k r = Ok (Str l) ->
  exists pre la0 lo0 lo la,
    row_getitem hdr (lat_col_name cfg) r = Ok la0 /\
    row_getitem (cols_setitem hdr (lat_col_name cfg)) (long_col_name cfg)
      (row_setitem hdr (lat_col_name cfg) (str_replace_cell la0) r) = Ok lo0 /\
    l = pre ++ " = ee.Geometry.Point([" ++ lo ++ "," ++ la ++ "]);" /\
    (Str lo = str_replace_cell lo0 \/
     (points_col_name cfg = None /\ long_col_name cfg = "index" /\ lo = str_of_nat k)) /\
    (Str la = str_replace_cell
                (if String.eqb (lat_col_name cfg) (long_col_name cfg) then lo0 else la0) \/
     (points_col_name cfg = None /\ lat_col_name cfg = "index" /\ la = str_of_nat k)).
Proof.
  intros Hlen H. unfold row_def in H. cbv zeta in H.
  set (lat := lat_col_name cfg) in *. set (long := long_col_name cfg) in *.
  destruct (row_getitem hdr lat r) as [la0|e] eqn:E1; cbn [bind] in H; [|discriminate].
  set (r1 := row_setitem hdr lat (str_replace_cell la0) r) in *.
  set (c1 := cols_setitem hdr lat) in *.
  destruct (row_getitem c1 long r1) as [lo0|e] eqn:E2; cbn [bind] in H; [|discriminate].
  set (r2 := row_setitem c1 long (str_replace_cell lo0) r1) in *.
  set (c2 := cols_setitem c1 long) in *.
  assert (L1 : length r1 = length c1) by (apply length_row_setitem; exact Hlen).
  assert (L2 : length r2 = length c2) by (apply length_row_setitem; exact L1).
  assert (Flong : forall x, row_getitem c2 long r2 = Ok x -> x = str_replace_cell lo0)
    by (intros x Hx; exact (row_getitem_setitem _ _ _ _ _ L1 Hx)).
  assert (Flat : forall x, row_getitem c2 lat r2 = Ok x ->
            x = str_replace_cell (if String.eqb lat long then lo0 else la0)).
  { intros x Hx. destruct (row_getitem_after _ _ _ _ _ _ L1 Hx) as [[-> ->] | [Hne Hx']].
    - rewrite String.eqb_refl. reflexivity.
    - apply String.eqb_neq in Hne. rewrite Hne.
      exact (row_getitem_setitem _ _ _ _ _ Hlen Hx'). }
  destruct (points_col_name cfg) as [p|] eqn:Hp.
  - destruct (row_getitem c2 p r2) as [pc|e]; cbn [bind] in H; [|discriminate].
    destruct (cat_cell (Str "var ") pc) as [a|e]; cbn [bind] in H; [|discriminate].
    destruct (row_second_part c2 lat long r2) as [b|e] eqn:E4; cbn [bind] in H;
      [|discriminate].
    apply cat_cell_str in H as [x [y [-> [-> ->]]]].
    apply row_second_part_str in E4 as [lo [la [Glo [Gla ->]]]].
    exists x, la0, lo0, lo, la.
    split; [first [exact E1 | reflexivity]|]. split; [first [exact E2 | reflexivity]|].
    split; [reflexivity|]. split; left; [exact (Flong _ Glo) | exact (Flat _ Gla)].
  - set (r3 := row_setitem c2 "index" (Str (str_of_nat k)) r2) in *.
    set (c3 := cols_setitem c2 "index") in *.
    destruct (row_getitem c3 "index" r3) as [ix|e]; cbn [bind] in H; [|discriminate].
    destruct (cat_cell (Str "var point_") ix) as [a|e]; cbn [bind] in H; [|discriminate].
    destruct (row_second_part c3 lat long r3) as [b|e] eqn:E4; cbn [bind] in H;
      [|discriminate].
    apply cat_cell_str in H as [x [y [-> [-> ->]]]].
    apply row_second_part_str in E4 as [lo [la [Glo [Gla ->]]]].
    exists x, la0, lo0, lo, la.
    split; [first [exact E1 | reflexivity]|]. split; [first [exact E2 | reflexivity]|].
    split; [reflexivity|]. split.
    + destruct (row_getitem_after _ _ _ _ _ _ L2 Glo) as [[Hi Hv] | [_ Hv]].
      * right. injection Hv as ->. auto.
      * left. exact (Flong _ Hv).
    + destruct (row_getitem_after _ _ _ _ _ _ L2 Gla) as [[Hi Hv] | [_ Hv]].
      * right. injection Hv as ->. auto.
      * left. exact (Flat _ Hv).
Qed.

Lemma row_def_point_label cfg hdr k r l :
  points_col_name cfg = None -> length r = length hdr ->
  row_def cfg hdr k r = Ok (Str l) ->
  exists lo la,
    l = "var " ++ "point_" ++ str_of_nat k ++
        " = ee.Geometry.Point([" ++ lo ++ "," ++ la ++ "]);".
Proof.
  intros Hp Hlen. unfold row_def. rewrite Hp. cbv zeta.
  set (lat := lat_col_name cfg). set (long := long_col_name cfg).
  intros H.
  destruct (row_getitem hdr lat r) as [la0|e] eqn:E1; cbn [bind] in H; [|discriminate].
  set (r1 := row_setitem hdr lat (str_replace_cell la0) r) in *.
  set (c1 := cols_setitem hdr lat) in *.
  destruct (row_getitem c1 long r1) as [lo0|e] eqn:E2; cbn [bind] in H; [|discriminate].
  set (r2 := row_setitem c1 long (str_replace_cell lo0) r1) in *.
  set (c2 := cols_setitem c1 long) in *.
  destruct (row_getitem (cols_setitem c2 "index")  "index"
              (row_setitem c2 "index" (Str (str_of_nat k)) r2)) as [ix|e] eqn:E3;
    cbn [bind] in H; [|discriminate].
  assert (L2 : length r2 = length c2)
    by (unfold r2, c2, r1, c1; rewrite !length_row_setitem; auto;
        rewrite length_row_setitem; auto).
  apply row_getitem_setitem in E3; [|exact L2]. subst ix.
  cbn [cat_cell bind] in H.
  destruct (row_second_part _ lat long _) as [b|e] eqn:E4; cbn [bind] in H;
    [|discriminate].
  destruct b as [y| |]; try discriminate. injection H as <-.
  apply row_second_part_str in E4 as [lo [la [_ [_ ->]]]].
  exists lo, la. reflexivity.
Qed.

Lemma str_replace_cell_str c s :
  str_replace_cell c = Str s -> exists x, c = Str x /\ s = str_replace_comma x.
Proof. destruct c as [x| |]; simpl; intros H; try discriminate. injection H as <-. eauto. Qed.

(** With distinct column names, a row's line is built from its own label,
    longitude and latitude fields. *)
Lemma row_def_line cfg hdr k r l :
  lat_col_name cfg <> long_col_name cfg ->
  match points_col_name cfg with
  | Some p => p <> lat_col_name cfg /\ p <> long_col_name cfg
  | None => lat_col_name cfg <> "index" /\ long_col_name cfg <> "index"
  end ->
  length r = length hdr ->
  row_def cfg hdr k r = Ok (Str l) ->
  exists label lo la,
    row_getitem hdr (long_col_name cfg) r = Ok (Str lo) /\
    row_getitem hdr (lat_col_name cfg) r = Ok (Str la) /\
    match points_col_name cfg with
    | Some p => row_getitem hdr p r = Ok (Str label)
    | None => label = "point_" ++ str_of_nat k
    end /\
    l = "var " ++ label ++ " = ee.Geometry.Point([" ++ str_replace_comma lo ++ "," ++
        str_replace_comma la ++ "]);".
Proof.
  intros Hll Hnames Hlen H. unfold row_def in H. cbv zeta in H.
  set (lat := lat_col_name cfg) in *. set (long := long_col_name cfg) in *.
  destruct (row_getitem hdr lat r) as [la0|e] eqn:E1; cbn [bind] in H; [|discriminate].
  set (r1 := row_setitem hdr lat (str_replace_cell la0) r) in *.
  set (c1 := cols_setitem hdr lat) in *.
  destruct (row_getitem c1 long r1) as [lo0|e] eqn:E2; cbn [bind] in H; [|discriminate].
  set (r2 := row_setitem c1 long (str_replace_cell lo0) r1) in *.
  set (c2 := cols_setitem c1 long) in *.
  assert (L1 : length r1 = length c1) by (apply length_row_setitem; exact Hlen).
  assert (L2 : length r2 = length c2) by (apply length_row_setitem; exact L1).
  assert (E2' : row_getitem hdr long r = Ok lo0)
    by (rewrite <- E2; symmetry; apply row_getitem_setitem_other; auto).
  assert (Glong : forall x, row_getitem c2 long r2 = Ok x -> x = str_replace_cell lo0)
    by (intros x Hx; exact (row_getitem_setitem _ _ _ _ _ L1 Hx)).
  assert (Glat : forall x, row_getitem c2 lat r2 = Ok x -> x = str_replace_cell la0).
  { intros x Hx. unfold c2, r2 in Hx.
    rewrite row_getitem_setitem_other in Hx by (assumption || exact L1).
    exact (row_getitem_setitem _ _ _ _ _ Hlen Hx). }
  assert (Fin : forall y, row_second_part c2 lat long r2 = Ok (Str y) ->
            exists lo la,
              row_getitem hdr long r = Ok (Str lo) /\ row_getitem hdr lat r = Ok (Str la) /\
              y = " = ee.Geometry.Point([" ++ str_replace_comma lo ++ "," ++
                  str_replace_comma la ++ "]);").
  { intros y Hy. apply row_second_part_str in Hy as [lo' [la' [Glo [Gla ->]]]].
    apply Glong in Glo. apply Glat in Gla. symmetry in Glo, Gla.
    apply str_replace_cell_str in Glo as [lo [-> ->]].
    apply str_replace_cell_str in Gla as [la [-> ->]].
    exists lo, la. split; [exact E2'|]. split; [exact E1|]. reflexivity. }
  destruct (points_col_name cfg) as [p|] eqn:Hp.
  - destruct Hnames as [Hpl Hpg].
    destruct (row_getitem c2 p r2) as [pc|e] eqn:E3; cbn [bind] in H; [|discriminate].
    destruct (cat_cell (Str "var ") pc) as [a|e] eqn:Ea; cbn [bind] in H; [|discriminate].
    destruct (row_second_part c2 lat long r2) as [b|e] eqn:E4; cbn [bind] in H;
      [|discriminate].
    apply cat_cell_str in H as [x [y [-> [-> ->]]]].
    apply cat_cell_str in Ea as [x0 [s [Hx0 [-> ->]]]]. injection Hx0 as <-.
    destruct (Fin y ltac:(first [exact E4 | reflexivity])) as [lo [la [Hlo [Hla Hl]]]].
    exists s, lo, la. split; [congruence|]. split; [congruence|]. split.
    + rewrite <- E3. unfold c2, r2, c1, r1.
      rewrite row_getitem_setitem_other by (auto || exact L1).
      rewrite row_getitem_setitem_other by (auto || exact Hlen). reflexivity.
    + subst y. rewrite string_app_assoc. reflexivity.
  - destruct Hnames as [Hli Hgi].
    set (r3 := row_setitem c2 "index" (Str (str_of_nat k)) r2) in *.
    set (c3 := cols_setitem c2 "index") in *.
    destruct (row_getitem c3 "index" r3) as [ix|e] eqn:E3; cbn [bind] in H; [|discriminate].
    apply row_getitem_setitem in E3; [|exact L2]. subst ix.
    cbn [cat_cell bind] in H.
    destruct (row_second_part c3 lat long r3) as [b|e] eqn:E4; cbn [bind] in H;
      [|discriminate].
    destruct b as [y| |]; try discriminate. injection H as <-.
    assert (E4' : row_second_part c2 lat long r2 = Ok (Str y)).
    { rewrite <- E4. unfold row_second_part, c3, r3.
      rewrite !row_getitem_setitem_other by (auto || exact L2). reflexivity. }
    destruct (Fin y E4') as [lo [la [Hlo [Hla Hl]]]].
    exists ("point_" ++ str_of_nat k), lo, la. split; [congruence|]. split; [congruence|].
    split; [reflexivity|]. subst y. rewrite !string_app_assoc. reflexivity.
Qed.

Lemma dec_value_app a d s : dec_value a (d ++ s) = dec_value (dec_value a d) s.
Proof. revert a; induction d as [|c d IH]; intros a; simpl; [reflexivity|]. apply IH. Qed.

Lemma all_digits_app a b : all_digits (a ++ b) = all_digits a && all_digits b.
Proof.
  unfold all_digits. induction a as [|c a IH]; simpl; [reflexivity|].
  rewrite IH, andb_assoc. reflexivity.
Qed.

Lemma digit_char_spec n :
  let c := ascii_of_nat (48 + n mod 10) in
  nat_of_ascii c = 48 + n mod 10 /\ is_digit c = true.
Proof.
  pose proof (Nat.mod_upper_bound n 10 ltac:(lia)) as Hm.
  assert (E : nat_of_ascii (ascii_of_nat (48 + n mod 10)) = 48 + n mod 10)
    by (apply nat_ascii_embedding; lia).
  cbv zeta. split; [exact E|]. unfold is_digit. cbv zeta. rewrite E.
  apply andb_true_iff. split; apply Nat.leb_le; lia.
Qed.

Lemma digits_of_spec fuel n acc :
  n < fuel ->
  exists d, digits_of fuel n acc = d ++ acc /\ d <> EmptyString /\
            all_digits d = true /\ dec_value 0 d = n.
Proof.
  revert n acc; induction fuel as [|f IH]; intros n acc Hn; [lia|].
  destruct (digit_char_spec n) as [Ec Dc].
  set (c := ascii_of_nat (48 + n mod 10)) in *.
  cbn [digits_of]. fold c. destruct (Nat.ltb_spec n 10) as [Hlt|Hge].
  - exists (String c EmptyString). split; [reflexivity|]. split; [discriminate|].
    split; [unfold all_digits; cbn [list_ascii_of_string forallb]; rewrite Dc; reflexivity|].
    cbn [dec_value]. rewrite Ec. rewrite Nat.mod_small by exact Hlt. lia.
  - assert (Hd : n / 10 < f).
    { assert (n / 10 < n) by (apply Nat.div_lt; lia). lia. }
    destruct (IH (n / 10) (String c acc) Hd) as [d [Ed [_ [Ad Vd]]]].
    exists (d ++ String c EmptyString). split.
    + rewrite Ed, string_app_assoc. reflexivity.
    + split; [destruct d; discriminate|]. split.
      * rewrite all_digits_app, Ad. unfold all_digits.
        cbn [list_ascii_of_string forallb]. rewrite Dc. reflexivity.
      * rewrite dec_value_app, Vd. cbn [dec_value]. rewrite Ec.
        pose proof (Nat.div_mod_eq n 10). lia.
Qed.

Lemma str_of_nat_digits n :
  str_of_nat n <> EmptyString /\ all_digits (str_of_nat n) = true /\
  dec_value 0 (str_of_nat n) = n.
Proof.
  destruct (digits_of_spec (S n) n EmptyString ltac:(lia)) as [d [Ed [Nd [Ad Vd]]]].
  unfold str_of_nat. rewrite Ed, string_app_nil_r. auto.
Qed.

Lemma str_of_nat_inj n n' : str_of_nat n' = str_of_nat n -> n' = n.
Proof.
  intros E. destruct (str_of_nat_digits n) as (_ & _ & V).
  destruct (str_of_nat_digits n') as (_ & _ & V'). rewrite E, V in V'.
  symmetry. exact V'.
Qed.

Lemma no_comma_str_replace c s : str_replace_cell c = Str s -> no_comma s = true.
Proof.
  destruct c as [s0| |]; simpl; intros H; try discriminate. injection H as <-.
  unfold no_comma. induction s0 as [|c s0 IH]; simpl; [reflexivity|].
  rewrite IH, andb_true_r.
  destruct (Ascii.eqb_spec c comma) as [->|Hc];
    [reflexivity | apply Ascii.eqb_neq in Hc; rewrite Hc; reflexivity].
Qed.

Lemma no_comma_digits s : all_digits s = true -> no_comma s = true.
Proof.
  unfold all_digits, no_comma. induction s as [|c s IH]; simpl; [reflexivity|].
  intros H. apply andb_true_iff in H as [Hc Hs]. rewrite (IH Hs), andb_true_r.
  destruct (Ascii.eqb_spec c comma) as [->|]; [discriminate|reflexivity].
Qed.

Lemma string_app_cancel_l (p a b : string) : p ++ a = p ++ b -> a = b.
Proof. induction p as [|c p IH]; simpl; [auto|]. intros H. injection H as H. auto. Qed.

Lemma digits_prefix a b x y :
  all_digits a = true -> all_digits b = true ->
  a ++ String " " x = b ++ String " " y -> a = b.
Proof.
  unfold all_digits. revert b; induction a as [|c a IH]; intros [|c' b] Ha Hb E;
    simpl in *.
  - reflexivity.
  - injection E as Ec _. subst c'. discriminate Hb.
  - injection E as Ec _. subst c. discriminate Ha.
  - injection E as -> E. apply andb_true_iff in Ha as [_ Ha].
    apply andb_true_iff in Hb as [_ Hb]. rewrite (IH b Ha Hb E). reflexivity.
Qed.





Lemma unescape_escape cur s rest :
  unescape_lines cur (list_ascii_of_string (escape s) ++ nl :: rest)%list =
  string_of_list_ascii (rev cur ++ list_ascii_of_string s)%list :: unescape_lines [] rest.
Proof.
  revert cur. induction s as [|c s IH]; intros cur.
  - simpl. rewrite app_nil_r. reflexivity.
  - cbn [escape]. destruct (needs_escape c) eqn:Hc.
    + cbn [list_ascii_of_string app unescape_lines]. rewrite Ascii.eqb_refl.
      rewrite IH. cbn [list_ascii_of_string rev]. rewrite <- app_assoc. reflexivity.
    + unfold needs_escape in Hc. apply orb_false_iff in Hc as [Hn Hb].
      cbn [list_ascii_of_string app unescape_lines]. rewrite Hb, Hn.
      rewrite IH. cbn [list_ascii_of_string rev]. rewrite <- app_assoc. reflexivity.
Qed.

Lemma concat_lines_round_trip lines :
  unescape_lines [] (list_ascii_of_string (concat_lines lines)) = lines.
Proof.
  induction lines as [|l ls IH]; [reflexivity|].
  cbn [concat_lines fold_right]. rewrite list_ascii_of_string_app.
  change (list_ascii_of_string (newline ++ fold_right (fun l acc => escape l ++ newline ++ acc)
    "" ls)) with (nl :: list_ascii_of_string (concat_lines ls)).
  rewrite unescape_escape, IH. simpl. rewrite string_of_list_ascii_of_string. reflexivity.
Qed.

(** *** Missing and repeated names *)

Lemma replace_by_positions df name :
  sane df ->
  match positions name (columns df) 0 with
  | [] => replace_comma_with_dot_in_col df name = Err (KeyError name)
  | [_] => exists col, replace_comma_with_dot_in_col df name = Ok col /\
                       Forall (fun c => strish c = true) col
  | _ => replace_comma_with_dot_in_col df name = Err (NotASeries name)
  end.
Proof.
  intros S. pose proof (good_replace df name S) as G.
  unfold replace_comma_with_dot_in_col, getitem in *.
  destruct (positions name (columns df) 0) as [|j [|j' js]]; cbn [bind] in *;
    try reflexivity.
  destruct (_ && _); simpl in G |- *.
  - eexists; split; [reflexivity | exact G].
  - destruct G as [x [H|H]]; discriminate.
Qed.

(** The lookups of [points_def] fail on the first of the latitude,
    longitude and label names that is missing from the header or repeated
    in it. *)
Lemma points_def_missing cfg df0 hdr :
  loaded df0 ->
  iloc_row df0 (Z.of_nat (num_rows_before_header cfg) - 1) = Ok hdr ->
  positions (lat_col_name cfg) hdr 0 = [] \/
  positions (long_col_name cfg) hdr 0 = [] \/
  (exists p, points_col_name cfg = Some p /\ positions p hdr 0 = []) ->
  exists x,
    (x = lat_col_name cfg \/ x = long_col_name cfg \/ points_col_name cfg = Some x) /\
    (points_def cfg df0 = Err (KeyError x) /\ positions x hdr 0 = [] \/
     points_def cfg df0 = Err (NotASeries x) /\ 2 <= length (positions x hdr 0)).
Proof.
  intros Ld Hh Hmiss. pose proof (iloc_row_in _ _ _ Hh) as Hin.
  pose proof (sane_after_header _ (num_rows_before_header cfg) _ Ld Hin) as S1.
  unfold points_def. rewrite Hh. cbn [bind]. cbv zeta.
  set (df1 := drop_rows (num_rows_before_header cfg) (set_columns df0 hdr)) in *.
  assert (C1 : columns df1 = hdr) by reflexivity.
  pose proof (replace_by_positions df1 (lat_col_name cfg) S1) as R1. rewrite C1 in R1.
  destruct (positions (lat_col_name cfg) hdr 0) as [|i [|i' is]] eqn:P1.
  - rewrite R1. cbn [bind]. exists (lat_col_name cfg).
    split; [left; reflexivity|]. left. auto.
  - destruct R1 as [la [R1 Fla]]. rewrite R1. cbn [bind].
    set (df2 := setitem df1 (lat_col_name cfg) (true, la)).
    assert (S2 : sane df2)
      by (apply sane_setitem; [exact S1 | split; [reflexivity | exact Fla]]).
    assert (C2 : columns df2 = hdr)
      by (unfold df2; rewrite columns_setitem, C1; exact (cols_setitem_found _ _ _ P1)).
    pose proof (replace_by_positions df2 (long_col_name cfg) S2) as R2. rewrite C2 in R2.
    destruct (positions (long_col_name cfg) hdr 0) as [|j [|j' js]] eqn:P2.
    + rewrite R2. cbn [bind]. exists (long_col_name cfg).
      split; [right; left; reflexivity|]. left. auto.
    + destruct R2 as [lo [R2 _]]. rewrite R2. cbn [bind].
      set (df3 := setitem df2 (long_col_name cfg) (true, lo)).
      assert (C3 : columns df3 = hdr)
        by (unfold df3; rewrite columns_setitem, C2; exact (cols_setitem_found _ _ _ P2)).
      destruct Hmiss as [H | [H | [p [Hp Hpp]]]]; [discriminate | discriminate|].
      rewrite Hp. exists p. split; [right; right; reflexivity|].
      left. split; [|exact Hpp].
      unfold getitem at 1. rewrite C3, Hpp. reflexivity.
    + rewrite R2. cbn [bind]. exists (long_col_name cfg).
      split; [right; left; reflexivity|]. right. split; [reflexivity|].
      rewrite P2. simpl. lia.
  - rewrite R1. cbn [bind]. exists (lat_col_name cfg).
    split; [left; reflexivity|]. right. split; [reflexivity|].
    rewrite P1. simpl. lia.
Qed.

(** *** Successful runs row by row *)

Lemma success_lines m cfg m' :
  csv_to_gee_points m cfg = (m', Ok tt) ->
  exists txt df0 hdr (vals : list cell),
    m (csv_file cfg) = Some txt /\
    read_csv (sep cfg) txt = Ok df0 /\
    iloc_row df0 (Z.of_nat (num_rows_before_header cfg) - 1) = Ok hdr /\
    m' (out_file cfg) =
      Some (concat_lines (flat_map (fun v => repeat (cell_text v) (dup_count hdr)) vals)) /\
    (forall p, p <> out_file cfg -> m' p = m p) /\
    length vals = length (skipn (num_rows_before_header cfg) (rows df0)) /\
    (forall k r, nth_error (skipn (num_rows_before_header cfg) (rows df0)) k = Some r ->
       length r = length hdr /\
       exists v, nth_error vals k = Some v /\ row_def cfg hdr k r = Ok v) /\
    (forall k v, nth_error vals k = Some v ->
       exists r, nth_error (skipn (num_rows_before_header cfg) (rows df0)) k = Some r /\
         length r = length hdr /\ row_def cfg hdr k r = Ok v) /\
    (dup_count hdr = 1 -> exists lines, vals = map Str lines).
Proof.
  intros Hrun.
  destruct (success_run _ _ _ Hrun)
    as (txt & df0 & hdr & df & vals & Hm & Hr & Hh & _ & [L A] & _ & Hl & ->).
  pose proof (read_csv_loaded _ _ _ Hr) as (_ & R & _).
  assert (W : forall k r, nth_error (skipn (num_rows_before_header cfg) (rows df0)) k = Some r ->
                length r = length hdr).
  { intros k r Er. rewrite (R r), (R hdr (iloc_row_in _ _ _ Hh)); [reflexivity|].
    rewrite nth_error_skipn in Er. exact (nth_error_In _ _ Er). }
  exists txt, df0, hdr, vals.
  split; [exact Hm|]. split; [exact Hr|]. split; [exact Hh|].
  split; [unfold update; rewrite String.eqb_refl; reflexivity|].
  split; [intros p Hp; unfold update; apply String.eqb_neq in Hp; rewrite Hp; reflexivity|].
  split; [exact L|]. split; [|split; [|exact Hl]].
  - intros k r Er. split; [exact (W k r Er) | exact (A k r Er)].
  - intros k v Ev.
    assert (Hk : k < length (skipn (num_rows_before_header cfg) (rows df0)))
      by (rewrite <- L; apply nth_error_Some; congruence).
    apply nth_error_Some in Hk.
    destruct (nth_error (skipn _ (rows df0)) k) as [r|] eqn:Er; [|contradiction].
    destruct (A k r Er) as [v' [Ev' Fv]]. rewrite Ev in Ev'. injection Ev' as <-.
    exists r. split; [reflexivity|]. split; [exact (W k r Er) | exact Fv].
Qed.

Lemma In_flat_map_repeat (vals : list cell) d l :
  In l (flat_map (fun v => repeat (cell_text v) d) vals) ->
  exists k v, nth_error vals k = Some v /\ l = cell_text v.
Proof.
  intros H. apply in_flat_map in H as [v [Hv Hl]].
  apply repeat_spec in Hl. apply In_nth_error in Hv as [k Hk]. eauto.
Qed.

Lemma dup_count_one hdr :
  length (positions points_def_col_name hdr 0) <= 1 -> dup_count hdr = 1.
Proof. unfold dup_count. lia. Qed.

Lemma flat_map_repeat_one (lines : list string) :
  flat_map (fun v => repeat (cell_text v) 1) (map Str lines) = lines.
Proof. rewrite flat_map_single. apply map_cell_text_str. Qed.

Lemma length_rows_build_frame hd data : length (rows (build_frame hd data)) = length data.
Proof. unfold build_frame, data_cells. simpl. rewrite !length_map. reflexivity. Qed.

(** *** The tokenizer on lines without quotes *)

Lemma tokenize_cons sep st fld row c cs :
  tokenize sep st fld row (c :: cs) =
  let '(st', fld', row', out) := step sep st fld row c in
  let (recs, err) := tokenize sep st' fld' row' cs in (emit out recs, err).
Proof. reflexivity. Qed.






(** *** Blank files *)

Lemma tokenize_blank_chars sep st fld cs :
  st = StartRecord \/ st = WhitespaceLine \/ st = EatCrnlNop ->
  Forall (fun c => c = nl \/ c = cr \/ skip_blank sep c = true) cs ->
  tokenize sep st fld [] cs = ([], false).
Proof.
  intros Hst Hcs. revert st fld Hst.
  induction Hcs as [|c cs Hc _ IH]; intros st fld Hst.
  - destruct Hst as [-> | [-> | ->]]; reflexivity.
  - rewrite tokenize_cons.
    assert (Hstep : exists st' fld',
              (st' = StartRecord \/ st' = WhitespaceLine \/ st' = EatCrnlNop) /\
              step sep st fld [] c = (st', fld', [], None)).
    { destruct Hc as [-> | [-> | Hb]].
      - destruct Hst as [-> | [-> | ->]]; unfold step, start_record;
          [| | destruct (nl =? sep)%char]; simpl; eauto 6.
      - destruct Hst as [-> | [-> | ->]]; unfold step, start_record;
          [| | destruct (cr =? sep)%char eqn:Es]; simpl; eauto 6;
          rewrite ?Es; simpl; eauto 6.
      - unfold skip_blank in Hb. pose proof Hb as Hb'.
        apply andb_true_iff in Hb' as [Hbl Hs]. apply negb_true_iff in Hs.
        unfold is_blank in Hbl. apply orb_true_iff in Hbl as [E | E];
          apply Ascii.eqb_eq in E; subst c;
          destruct Hst as [-> | [-> | ->]]; unfold step, start_record, skip_blank;
          rewrite ?Hs; simpl; rewrite ?Hs; simpl; eauto 6. }
    destruct Hstep as (st' & fld' & Hst' & ->). cbv iota beta.
    rewrite (IH st' fld' Hst'). reflexivity.
Qed.

(** *** The rows [read_csv] builds from the records *)

Lemma cell_from_coerce kk c f : cell_from c f -> cell_from (coerce kk c) f.
Proof. destruct kk, c; simpl; auto. Qed.

Lemma cell_from_to_cell f : cell_from (to_cell f) f.
Proof. unfold to_cell. destruct (is_na f) eqn:E; simpl; auto. Qed.

Lemma build_frame_row hd data k rec r :
  (forall r, In r data -> length r <= implicit_width hd data) ->
  nth_error data k = Some rec -> nth_error (rows (build_frame hd data)) k = Some r ->
  length r = length hd /\
  forall j, j < length hd ->
    cell_from (nth j r NaN) (nth (implicit_width hd data - length hd + j) rec "").
Proof.
  intros Hw Hk Hr.
  assert (Ed : nth_error (data_cells hd data) k =
               Some (skipn (implicit_width hd data - length hd)
                       (pad_row (implicit_width hd data) (map to_cell rec))))
    by (unfold data_cells; rewrite nth_error_map, Hk; reflexivity).
  unfold build_frame in Hr. cbv zeta in Hr. cbn [rows] in Hr.
  rewrite nth_error_map, Ed in Hr. cbn [option_map] in Hr. injection Hr as <-.
  set (w := implicit_width hd data) in *.
  set (ks := map (fun j => col_kind (column_of j (data_cells hd data))) (seq 0 (length hd))).
  assert (Lk : length ks = length hd) by (unfold ks; rewrite length_map, length_seq; reflexivity).
  assert (Hge : length hd <= w) by (unfold w, implicit_width; destruct data; lia).
  assert (Lrec : length rec <= w) by exact (Hw rec (nth_error_In _ _ Hk)).
  assert (Lpad : length (pad_row w (map to_cell rec)) = w)
    by (apply length_pad_row; rewrite length_map; exact Lrec).
  split.
  - rewrite length_coerce_row, length_skipn, Lpad, Lk. lia.
  - intros j Hj.
    assert (Ek : exists kk, nth_error ks j = Some kk)
      by (destruct (nth_error ks j) eqn:E; [eauto | apply nth_error_None in E; lia]).
    destruct Ek as [kk Ek].
    assert (Ep : exists c, nth_error (pad_row w (map to_cell rec)) (w - length hd + j) = Some c /\
                 cell_from c (nth (w - length hd + j) rec "")).
    { unfold pad_row. destruct (Nat.ltb_spec (w - length hd + j) (length rec)) as [Hlt|Hge'].
      - rewrite nth_error_app1 by (rewrite length_map; exact Hlt).
        rewrite nth_error_map.
        destruct (nth_error rec (w - length hd + j)) as [f|] eqn:Ef;
          [|apply nth_error_None in Ef; lia].
        exists (to_cell f). split; [reflexivity|].
        rewrite (nth_error_nth _ _ _ Ef). apply cell_from_to_cell.
      - rewrite nth_error_app2 by (rewrite length_map; exact Hge').
        rewrite length_map, nth_error_repeat by lia.
        exists NaN. split; [reflexivity|]. rewrite nth_overflow by exact Hge'. reflexivity. }
    destruct Ep as [c [Ep Hc]].
    assert (En : nth_error (coerce_row ks (skipn (w - length hd) (pad_row w (map to_cell rec)))) j
                 = Some (coerce kk c))
      by (rewrite nth_error_coerce_row, Ek, nth_error_skipn, Ep; reflexivity).
    rewrite (nth_error_nth _ _ _ En). apply cell_from_coerce. exact Hc.
Qed.

Lemma cell_from_na c f : cell_from c f -> is_na f = true -> c = NaN.
Proof. destruct c; simpl; intros H1 H2; try reflexivity; destruct H1; congruence. Qed.

(** *** Blank files *)

Lemma is_blank_not_bom a : is_blank a = true -> (nat_of_ascii a =? 239) = false.
Proof.
  unfold is_blank. intros H. apply orb_true_iff in H as [H|H];
    apply Ascii.eqb_eq in H; subst; reflexivity.
Qed.

Lemma strip_bom_blank sep cs :
  Forall (fun c => c = nl \/ c = cr \/ skip_blank sep c = true) cs -> strip_bom cs = cs.
Proof.
  destruct cs as [|a [|b [|c cs]]]; intros H; try reflexivity.
  inversion H as [|? ? Ha _]; subst. unfold strip_bom.
  assert (Hn : (nat_of_ascii a =? 239) = false).
  { destruct Ha as [-> | [-> | Hb]]; [reflexivity | reflexivity |].
    unfold skip_blank in Hb. apply andb_true_iff in Hb as [Hb _].
    exact (is_blank_not_bom _ Hb). }
  rewrite Hn. reflexivity.
Qed.

(** *** The rows after the header, record by record *)

Lemma frame_row_of_record hd data n k rec :
  nth_error (skipn n data) k = Some rec ->
  exists r, nth_error (skipn n (rows (build_frame hd data))) k = Some r /\
            nth_error (rows (build_frame hd data)) (n + k) = Some r /\
            nth_error data (n + k) = Some rec.
Proof.
  intros H. rewrite nth_error_skipn in H.
  assert (Hk : n + k < length (rows (build_frame hd data)))
    by (rewrite length_rows_build_frame; apply nth_error_Some; congruence).
  apply nth_error_Some in Hk.
  destruct (nth_error (rows (build_frame hd data)) (n + k)) as [r|] eqn:E; [|contradiction].
  exists r. rewrite nth_error_skipn. auto.
Qed.

(** ** The claims *)

(** *** Header selection *)

(** C1 (code defect at the default offset): with [num_rows_before_header = 0]
    the header is [df.iloc[-1]], the LAST record, not the first; the first
    record was consumed by [read_csv] and the last one is also kept as a data
    row.  Here the header row [Lat;Long] is used for the lookups only because
    the file repeats it at the end, and that last row is emitted as a point. *)
Theorem header_offset_zero_takes_last_row :
  iloc_row (match read_csv ";"%char (lines_text ["Lat;Long"; "45,1;7,2"; "Lat;Long"])
            with Ok df => df | Err _ => mkFrame [] [] [] end) (Z.of_nat 0 - 1)
  = Ok [Str "Lat"; Str "Long"] /\
  run (lines_text ["Lat;Long"; "45,1;7,2"; "Lat;Long"]) (demo_cfg 0 None) =
  (Some (lines_text ["var point_0 = ee.Geometry.Point([7.2,45.1]);";
                     "var point_1 = ee.Geometry.Point([Long,Lat]);"]), Ok tt) /\
  run (lines_text ["Lat;Long"; "45,1;7,2"]) (demo_cfg 0 None) =
  (None, Err (KeyError "Lat")).
Proof. vm_compute. auto. Qed.

(** C2 (same defect as C1): the scenario [Lat = "45,1"], [Long = "7,2"]
    fails at the default offset 0, because the header is taken from the
    last record; with one leading record and offset 1 it produces exactly
    the expected line. *)
Theorem scenario_single_row :
  run (lines_text ["Lat;Long"; "45,1;7,2"]) (demo_cfg 0 None) =
  (None, Err (KeyError "Lat")) /\
  run (lines_text ["junk;junk"; "Lat;Long"; "45,1;7,2"]) (demo_cfg 1 None) =
  (Some (lines_text ["var point_0 = ee.Geometry.Point([7.2,45.1]);"]), Ok tt).
Proof. vm_compute. auto. Qed.

(** C5 (code defect): without a label column the code stores the row numbers
    in a column named [index] before it assembles the point; a source column
    named [index] used as longitude is overwritten, and the row number is
    emitted in place of the longitude [7,2]. *)
Theorem index_column_overwrites_longitude :
  run (lines_text ["junk;junk"; "index;Lat"; "7,2;45,1"])
      (mkConfig "csv_file.csv" "out_file.txt" "Lat" "index" 1 None ";"%char) =
  (Some (lines_text ["var point_0 = ee.Geometry.Point([0,45.1]);"]), Ok tt).
Proof. vm_compute. reflexivity. Qed.

(** *** One line per data row *)




(** *** Synthesised labels *)




(** *** Missing columns *)

(** C6 (counterexample): in a header [Lat;Lat] the longitude column
    [Long] is missing, but the run fails on the duplicated latitude
    name, which [df[name]] returns as a frame and not as a series, and
    not with a [KeyError] naming the missing column. *)
Lemma missing_column_duplicate_first :
  let txt := lines_text ["junk;junk"; "Lat;Lat"; "1;2"] in
  (df0 <- read_csv ";"%char txt ;; iloc_row df0 0) = Ok [Str "Lat"; Str "Lat"] /\
  positions "Long" [Str "Lat"; Str "Lat"] 0 = [] /\
  snd (csv_to_gee_points (source txt) (demo_cfg 1 None)) = Err (NotASeries "Lat") /\
  fst (csv_to_gee_points (source txt) (demo_cfg 1 None)) "out_file.txt" = None.
Proof. vm_compute. auto. Qed.

(** C6 (as the code behaves): when the latitude, longitude or label name
    is missing from the resolved header, the run fails before anything is
    written, leaving the file system unchanged; the error is a [KeyError]
    on a missing name, or, when a name looked up before it (latitude,
    then longitude, then label) occurs twice in the header, the failure
    on that duplicated name. *)
Theorem missing_column_fails_before_writing m cfg txt df0 hdr :
  m (csv_file cfg) = Some txt ->
  read_csv (sep cfg) txt = Ok df0 ->
  iloc_row df0 (Z.of_nat (num_rows_before_header cfg) - 1) = Ok hdr ->
  positions (lat_col_name cfg) hdr 0 = [] \/
  positions (long_col_name cfg) hdr 0 = [] \/
  (exists p, points_col_name cfg = Some p /\ positions p hdr 0 = []) ->
  exists x,
    (x = lat_col_name cfg \/ x = long_col_name cfg \/ points_col_name cfg = Some x) /\
    (csv_to_gee_points m cfg = (m, Err (KeyError x)) /\ positions x hdr 0 = [] \/
     csv_to_gee_points m cfg = (m, Err (NotASeries x)) /\
     2 <= length (positions x hdr 0)).
Proof.
  intros Hm Hr Hh Hmiss.
  destruct (read_csv_spec _ _ _ Hr) as [Hs _].
  destruct (points_def_missing cfg df0 hdr (read_csv_loaded _ _ _ Hr) Hh Hmiss)
    as [x [Hx [[Hp Hk] | [Hp Hk]]]];
    exists x; split; [exact Hx| |exact Hx|];
    unfold csv_to_gee_points; rewrite Hs, Hm, Hr, Hp; auto.
Qed.

Lemma missing_column_fails_before_writing_witness :
  exists x,
    (x = "Lat" \/ x = "Long" \/ Some "Name" = Some x) /\
    (csv_to_gee_points (source demo_txt) (demo_cfg 1 (Some "Name")) =
       (source demo_txt, Err (KeyError x)) /\
     positions x [Str "Lat"; Str "Long"] 0 = [] \/
     csv_to_gee_points (source demo_txt) (demo_cfg 1 (Some "Name")) =
       (source demo_txt, Err (NotASeries x)) /\
     2 <= length (positions x [Str "Lat"; Str "Long"] 0)).
Proof.
  refine (missing_column_fails_before_writing (source demo_txt)
            (demo_cfg 1 (Some "Name")) demo_txt
            (match read_csv ";"%char demo_txt with Ok df => df | Err _ => mkFrame [] [] [] end)
            [Str "Lat"; Str "Long"] _ _ _ _).
  - reflexivity.
  - vm_compute. reflexivity.
  - vm_compute. reflexivity.
  - right. right. exists "Name". split; reflexivity.
Defined.

(** *** Output format *)




(** *** Effects on the file system *)

(** C8 (counterexample): when the output path names the source file, the
    successful run overwrites the source with the generated lines. *)
Lemma same_path_overwrites_source :
  let cfg := mkConfig "csv_file.csv" "csv_file.csv" "Lat" "Long" 1 None ";"%char in
  snd (csv_to_gee_points (source demo_txt) cfg) = Ok tt /\
  fst (csv_to_gee_points (source demo_txt) cfg) "csv_file.csv" =
    Some (lines_text ["var point_0 = ee.Geometry.Point([7.2,45.1]);";
                      "var point_1 = ee.Geometry.Point([2,1]);"]) /\
  fst (csv_to_gee_points (source demo_txt) cfg) "csv_file.csv" <>
    source demo_txt "csv_file.csv".
Proof. vm_compute. split; [reflexivity|]. split; [reflexivity|]. discriminate. Qed.

(** C8 (as the code behaves): a successful run writes the output path and
    leaves every other path as it was; the source file is unchanged exactly
    when its path differs from the output path. *)
Theorem only_output_path_written m m' cfg :
  csv_to_gee_points m cfg = (m', Ok tt) ->
  (exists content, m' (out_file cfg) = Some content) /\
  (forall p, p <> out_file cfg -> m' p = m p).
Proof.
  intros H.
  destruct (success_lines _ _ _ H) as (txt & df0 & hdr & vals & _ & _ & _ & Ho & Hp & _).
  split; [eexists; exact Ho | exact Hp].
Qed.

Lemma only_output_path_written_witness :
  (exists content,
     fst (csv_to_gee_points (source demo_txt) (demo_cfg 1 None)) "out_file.txt" =
       Some content) /\
  (forall p, p <> "out_file.txt" ->
     fst (csv_to_gee_points (source demo_txt) (demo_cfg 1 None)) p = source demo_txt p).
Proof.
  apply (only_output_path_written (source demo_txt)
           (fst (csv_to_gee_points (source demo_txt) (demo_cfg 1 None)))
           (demo_cfg 1 None)).
  vm_compute. reflexivity.
Defined.

(** *** Normalisation of coordinates *)

(** C9: on a string column the normalisation maps every cell through
    [str.replace(',', '.')], which turns each comma into a dot and checks
    nothing else: ["1,2,3"] becomes ["1.2.3"] and ["abc,x"] becomes
    ["abc.x"]; a whole run emits such values as they are. *)
Theorem comma_replacement_unconditional df name col :
  getitem df name = Ok (true, col) ->
  replace_comma_with_dot_in_col df name = Ok (map str_replace_cell col) /\
  (forall s, str_replace_cell (Str s) =
     Str (string_of_list_ascii
            (map (fun c => if (c =? comma)%char then dot else c)
                 (list_ascii_of_string s)))) /\
  str_replace_comma "1,2,3" = "1.2.3" /\
  str_replace_comma "abc,x" = "abc.x" /\
  run (lines_text ["junk;junk"; "Lat;Long"; "1,2,3;abc,x"]) (demo_cfg 1 None) =
    (Some (lines_text ["var point_0 = ee.Geometry.Point([abc.x,1.2.3]);"]), Ok tt).
Proof.
  intros Hg. split; [|split; [|split; [reflexivity|split; [reflexivity|]]]].
  - unfold replace_comma_with_dot_in_col. rewrite Hg. reflexivity.
  - intros s. simpl. f_equal.
    induction s as [|c s IH]; simpl; [reflexivity|]. rewrite IH. reflexivity.
  - vm_compute. reflexivity.
Qed.

Lemma comma_replacement_unconditional_witness :
  getitem (mkFrame [Str "Lat"] [true] [[Str "1,2,3"]; [Str "abc,x"]]) "Lat" =
    Ok (true, [Str "1,2,3"; Str "abc,x"]) /\
  (replace_comma_with_dot_in_col (mkFrame [Str "Lat"] [true] [[Str "1,2,3"]; [Str "abc,x"]])
     "Lat" = Ok (map str_replace_cell [Str "1,2,3"; Str "abc,x"]) /\
   (forall s, str_replace_cell (Str s) =
      Str (string_of_list_ascii
             (map (fun c => if (c =? comma)%char then dot else c)
                  (list_ascii_of_string s)))) /\
   str_replace_comma "1,2,3" = "1.2.3" /\
   str_replace_comma "abc,x" = "abc.x" /\
   run (lines_text ["junk;junk"; "Lat;Long"; "1,2,3;abc,x"]) (demo_cfg 1 None) =
     (Some (lines_text ["var point_0 = ee.Geometry.Point([abc.x,1.2.3]);"]), Ok tt)).
Proof.
  split; [vm_compute; reflexivity|].
  apply (comma_replacement_unconditional
           (mkFrame [Str "Lat"] [true] [[Str "1,2,3"]; [Str "abc,x"]]) "Lat"
           [Str "1,2,3"; Str "abc,x"]).
  vm_compute. reflexivity.
Defined.



(** ** Further properties of the code *)

(** *** Reading *)

(** A file holding nothing but line breaks, carriage returns, and blanks
    other than the separator (or nothing at all) makes [read_csv] raise
    [EmptyDataError] (or [ValueError] for the separator [\n]); nothing is
    written. *)
Theorem blank_file_empty_data m cfg txt :
  m (csv_file cfg) = Some txt ->
  Forall (fun c => c = nl \/ c = cr \/ skip_blank (sep cfg) c = true)
    (list_ascii_of_string txt) ->
  csv_to_gee_points m cfg =
    (m, Err (if (sep cfg =? nl)%char then ValueError else EmptyDataError)).
Proof.
  intros Hm Hb. unfold csv_to_gee_points.
  destruct (sep cfg =? nl)%char eqn:Es; [reflexivity|]. rewrite Hm.
  unfold read_csv, records. rewrite Es, (strip_bom_blank _ _ Hb).
  rewrite (tokenize_blank_chars _ _ _ _ (or_introl eq_refl) Hb). reflexivity.
Qed.

Lemma blank_file_empty_data_witness :
  csv_to_gee_points (source (String nl (String " " (String cr (String nl EmptyString)))))
    (demo_cfg 1 None) =
    (source (String nl (String " " (String cr (String nl EmptyString)))), Err EmptyDataError).
Proof.
  apply (blank_file_empty_data _ (demo_cfg 1 None)
           (String nl (String " " (String cr (String nl EmptyString))))).
  - reflexivity.
  - simpl. repeat (apply Forall_cons; [first [left; reflexivity | right; left; reflexivity |
                                             right; right; reflexivity]|]).
    constructor.
Defined.

(** A data record with more fields than the data rows have (the first
    record's fields, or the first data record's fields when it is longer
    and its leading fields form the implicit index) makes [read_csv] raise
    a parser error; nothing is written. *)
Theorem long_record_parser_error m cfg txt hd data r :
  (sep cfg =? nl)%char = false ->
  m (csv_file cfg) = Some txt ->
  records (sep cfg) txt = (hd :: data, false) ->
  forallb utf8_field hd = true ->
  In r data -> implicit_width hd data < length r ->
  csv_to_gee_points m cfg = (m, Err ParserError).
Proof.
  intros Hs Hm Ht Hu Hr Hl. unfold csv_to_gee_points. rewrite Hs, Hm.
  unfold read_csv. rewrite Hs, Ht, Hu. cbn [andb negb orb].
  replace (existsb (fun r0 => implicit_width hd data <? length r0) data) with true;
    [reflexivity|].
  symmetry. apply existsb_exists. exists r. split; [exact Hr|].
  apply Nat.ltb_lt. exact Hl.
Qed.

Lemma long_record_parser_error_witness :
  csv_to_gee_points (source (lines_text ["Lat;Long"; "1;2"; "1;2;3"])) (demo_cfg 1 None) =
    (source (lines_text ["Lat;Long"; "1;2"; "1;2;3"]), Err ParserError).
Proof.
  apply (long_record_parser_error _ _ (lines_text ["Lat;Long"; "1;2"; "1;2;3"])
           ["Lat"; "Long"] [["1"; "2"]; ["1"; "2"; "3"]] ["1"; "2"; "3"]).
  - reflexivity.
  - reflexivity.
  - vm_compute. reflexivity.
  - vm_compute. reflexivity.
  - right. left. reflexivity.
  - simpl. lia.
Defined.

(** [df.iloc[num_rows_before_header - 1]] is out of range when the offset
    points past the rows after the first record, or when there is no such
    row at all (offset 0 reads [iloc[-1]]); the run raises [IndexError] and
    writes nothing. *)
Theorem header_offset_out_of_range m cfg txt df0 :
  m (csv_file cfg) = Some txt ->
  read_csv (sep cfg) txt = Ok df0 ->
  length (rows df0) < num_rows_before_header cfg \/ rows df0 = [] ->
  csv_to_gee_points m cfg = (m, Err IndexError).
Proof.
  intros Hm Hr Hn. destruct (read_csv_spec _ _ _ Hr) as [Hs _].
  unfold csv_to_gee_points. rewrite Hs, Hm, Hr.
  unfold points_def. rewrite iloc_row_out; [reflexivity|].
  destruct Hn as [Hn | ->]; simpl; lia.
Qed.

Lemma header_offset_out_of_range_witness :
  csv_to_gee_points (source demo_txt) (demo_cfg 4 None) =
    (source demo_txt, Err IndexError).
Proof.
  apply (header_offset_out_of_range _ _ demo_txt
           (match read_csv ";"%char demo_txt with Ok df => df | Err _ => mkFrame [] [] [] end)).
  - reflexivity.
  - vm_compute. reflexivity.
  - left. vm_compute. lia.
Defined.

(** *** Writing *)



(** *** Which errors a run can raise *)



(** When the csv writer stops on a missing value, the output file has
    already been created: it holds the lines of the rows before the first
    row whose point definition is missing, and no other path changed. *)
Theorem csv_error_partial_output m cfg m' :
  csv_to_gee_points m cfg = (m', Err CsvError) ->
  exists txt df0 df lines rest,
    m (csv_file cfg) = Some txt /\
    read_csv (sep cfg) txt = Ok df0 /\
    points_def cfg df0 = Ok df /\
    select df points_def_col_name = Ok (map (fun v => [v]) (map Str lines ++ NaN :: rest)%list) /\
    m' (out_file cfg) = Some (concat_lines lines) /\
    (forall p, p <> out_file cfg -> m' p = m p).
Proof.
  intros H.
  destruct (run_error_cases _ _ _ _ H) as [[_ E] | [_ (txt & df0 & df & lines & rest & Hm & Hr & Hp & Hs & ->)]].
  - unfold lookup_error in E. decompose [or and ex] E; discriminate.
  - exists txt, df0, df, lines, rest. do 4 (split; [assumption|]). split.
    + unfold update. rewrite String.eqb_refl. reflexivity.
    + intros p Hne. unfold update. apply String.eqb_neq in Hne. rewrite Hne. reflexivity.
Qed.

(** The second data row has no latitude. *)
Lemma csv_error_partial_output_witness :
  exists txt df0 df lines rest,
    source (lines_text ["junk;junk"; "Lat;Long"; "45,1;7,2"; ";8"; "1;2"])
      "csv_file.csv" = Some txt /\
    read_csv ";"%char txt = Ok df0 /\
    points_def (demo_cfg 1 None) df0 = Ok df /\
    select df points_def_col_name = Ok (map (fun v => [v]) (map Str lines ++ NaN :: rest)%list) /\
    fst (csv_to_gee_points
           (source (lines_text ["junk;junk"; "Lat;Long"; "45,1;7,2"; ";8"; "1;2"]))
           (demo_cfg 1 None)) "out_file.txt" = Some (concat_lines lines) /\
    (forall p, p <> "out_file.txt" ->
       fst (csv_to_gee_points
              (source (lines_text ["junk;junk"; "Lat;Long"; "45,1;7,2"; ";8"; "1;2"]))
              (demo_cfg 1 None)) p =
       source (lines_text ["junk;junk"; "Lat;Long"; "45,1;7,2"; ";8"; "1;2"]) p).
Proof.
  apply (csv_error_partial_output
           (source (lines_text ["junk;junk"; "Lat;Long"; "45,1;7,2"; ";8"; "1;2"]))
           (demo_cfg 1 None)).
  vm_compute. reflexivity.
Defined.

(** *** Row numbers *)

(** [str(i)] as the code uses it for the row numbers is the decimal
    numeral of [i]: a non-empty string of digits that reads back as [i];
    distinct row numbers give distinct strings. *)
Theorem str_of_nat_decimal n :
  str_of_nat n <> EmptyString /\ all_digits (str_of_nat n) = true /\
  dec_value 0 (str_of_nat n) = n /\
  (forall n', str_of_nat n' = str_of_nat n -> n' = n).
Proof.
  destruct (str_of_nat_digits n) as (N & A & V). split; [exact N|]. split; [exact A|].
  split; [exact V|]. intros n'. apply str_of_nat_inj.
Qed.

(** *** The written lines *)

(** In every line of a successful run, the longitude and the latitude
    between [ee.Geometry.Point([] and [])] contain no comma: each is a
    value with its commas replaced by dots, or a row number.  The other
    lines are the empty lines of missing values, which only a header with
    two or more columns [points_def] lets through. *)
Theorem coordinates_without_comma m cfg m' :
  csv_to_gee_points m cfg = (m', Ok tt) ->
  exists txt df0 hdr lines,
    m (csv_file cfg) = Some txt /\
    read_csv (sep cfg) txt = Ok df0 /\
    iloc_row df0 (Z.of_nat (num_rows_before_header cfg) - 1) = Ok hdr /\
    m' (out_file cfg) = Some (concat_lines lines) /\
    forall l, In l lines ->
      (l = "" /\ 2 <= length (positions points_def_col_name hdr 0)) \/
      exists pre lo la,
        l = pre ++ " = ee.Geometry.Point([" ++ lo ++ "," ++ la ++ "]);" /\
        no_comma lo = true /\ no_comma la = true.
Proof.
  intros Hrun.
  destruct (success_lines _ _ _ Hrun)
    as (txt & df0 & hdr & vals & Hm & Hr & Hh & Ho & _ & _ & _ & B & Hl).
  exists txt, df0, hdr, (flat_map (fun v => repeat (cell_text v) (dup_count hdr)) vals).
  do 4 (split; [assumption|]).
  intros l Hin. destruct (In_flat_map_repeat _ _ _ Hin) as (k & v & Ev & ->).
  destruct (B k v Ev) as (r & _ & Hlen & Hd).
  destruct (row_def_shape _ _ _ _ _ Hd) as [-> | [s ->]].
  - left. split; [reflexivity|].
    destruct (Nat.le_gt_cases (length (positions points_def_col_name hdr 0)) 1) as [H1|H1];
      [|lia].
    destruct (Hl (dup_count_one _ H1)) as [lines El]. rewrite El, nth_error_map in Ev.
    destruct (nth_error lines k); discriminate.
  - right. cbn [cell_text].
    destruct (row_def_coords _ _ _ _ _ Hlen Hd)
      as (pre & la0 & lo0 & lo & la & _ & _ & E & Hlo & Hla).
    exists pre, lo, la. split; [exact E|]. split.
    + destruct Hlo as [Hlo | (_ & _ & ->)].
      * exact (no_comma_str_replace _ _ (eq_sym Hlo)).
      * apply no_comma_digits. apply str_of_nat_digits.
    + destruct Hla as [Hla | (_ & _ & ->)].
      * exact (no_comma_str_replace _ _ (eq_sym Hla)).
      * apply no_comma_digits. apply str_of_nat_digits.
Qed.

Lemma coordinates_without_comma_witness :
  exists txt df0 hdr lines,
    source demo_txt "csv_file.csv" = Some txt /\
    read_csv ";"%char txt = Ok df0 /\
    iloc_row df0 (Z.of_nat 1 - 1) = Ok hdr /\
    fst (csv_to_gee_points (source demo_txt) (demo_cfg 1 None)) "out_file.txt" =
      Some (concat_lines lines) /\
    forall l, In l lines ->
      (l = "" /\ 2 <= length (positions points_def_col_name hdr 0)) \/
      exists pre lo la,
        l = pre ++ " = ee.Geometry.Point([" ++ lo ++ "," ++ la ++ "]);" /\
        no_comma lo = true /\ no_comma la = true.
Proof.
  apply (coordinates_without_comma (source demo_txt) (demo_cfg 1 None)).
  vm_compute. reflexivity.
Defined.

(** When the header has at most one column [points_def], a data row
    whose latitude or longitude field is a missing-value marker (such as
    the empty field or [NA]) or absent because the record is short never
    yields a successful run: its point definition is missing and the
    writer refuses it (unless, without a label column, that coordinate
    column is the helper column [index]).  The field of column [i] of a
    record is its field [i] after the fields of the implicit index, if
    the first data record has more fields than the first record. *)
Theorem missing_coordinate_fails m cfg txt hd data df0 hdr x i k rec :
  m (csv_file cfg) = Some txt ->
  records (sep cfg) txt = (hd :: data, false) ->
  read_csv (sep cfg) txt = Ok df0 ->
  iloc_row df0 (Z.of_nat (num_rows_before_header cfg) - 1) = Ok hdr ->
  length (positions points_def_col_name hdr 0) <= 1 ->
  x = lat_col_name cfg \/ x = long_col_name cfg ->
  positions x hdr 0 = [i] ->
  nth_error (skipn (num_rows_before_header cfg) data) k = Some rec ->
  is_na (nth (implicit_width hd data - length hd + i) rec "") = true ->
  (points_col_name cfg = None -> x <> "index") ->
  snd (csv_to_gee_points m cfg) <> Ok tt.
Proof.
  intros Hm Ht Hr Hh H1 Hx Hpos Hrec Hna Hidx.
  destruct (csv_to_gee_points m cfg) as [m' res] eqn:Hrun. simpl. intros ->.
  destruct (success_lines _ _ _ Hrun)
    as (txt' & df0' & hdr' & vals & Hm' & Hr' & Hh' & _ & _ & _ & F & _ & Hl).
  rewrite Hm in Hm'. injection Hm' as <-. rewrite Hr in Hr'. injection Hr' as <-.
  rewrite Hh in Hh'. injection Hh' as <-.
  destruct (read_csv_loaded _ _ _ Hr) as (_ & R & _).
  destruct (read_csv_spec _ _ _ Hr) as (_ & hd' & data' & Ht' & _ & Hw & _ & Hdf).
  rewrite Ht in Ht'. injection Ht' as <- <-. subst df0.
  set (n := num_rows_before_header cfg) in *.
  destruct (frame_row_of_record hd data n k rec Hrec) as (r & Er & Er' & Ed).
  destruct (F k r Er) as [Hlen [v [Ev Hd]]].
  destruct (Hl (dup_count_one _ H1)) as [lines El].
  rewrite El, nth_error_map in Ev.
  destruct (nth_error lines k) as [l|]; [|discriminate]. injection Ev as <-.
  assert (Hi : i < length hd).
  { pose proof (positions_lt x hdr i ltac:(rewrite Hpos; left; reflexivity)) as Hi.
    rewrite (R hdr (iloc_row_in _ _ _ Hh)) in Hi. simpl in Hi.
    rewrite length_map in Hi. exact Hi. }
  assert (Hnan : nth i r NaN = NaN)
    by exact (cell_from_na _ _ (proj2 (build_frame_row hd data (n + k) rec r Hw Ed Er') i Hi) Hna).
  destruct (row_def_coords _ _ _ _ _ Hlen Hd)
    as (pre & la0 & lo0 & lo & la & E1 & E2 & _ & Hlo & Hla).
  destruct Hx as [-> | ->].
  - unfold row_getitem in E1. rewrite Hpos in E1. injection E1 as E1.
    rewrite Hnan in E1. subst la0.
    destruct Hla as [Hla | (Hp & Hi' & _)]; [|exact (Hidx Hp Hi')].
    destruct (String.eqb_spec (lat_col_name cfg) (long_col_name cfg)) as [Eq|Neq].
    + rewrite <- Eq in E2.
      apply row_getitem_setitem in E2; [|exact Hlen]. subst lo0. discriminate.
    + discriminate.
  - destruct (row_getitem_after _ _ _ _ _ _ Hlen E2) as [[Eq Hv] | [_ Hv]].
    + subst lo0. unfold row_getitem in E1. rewrite <- Eq, Hpos in E1.
      injection E1 as E1. rewrite Hnan in E1. subst la0.
      destruct Hlo as [Hlo | (Hp & Hi' & _)]; [discriminate | exact (Hidx Hp Hi')].
    + unfold row_getitem in Hv. rewrite Hpos in Hv. injection Hv as Hv.
      rewrite Hnan in Hv. subst lo0.
      destruct Hlo as [Hlo | (Hp & Hi' & _)]; [discriminate | exact (Hidx Hp Hi')].
Qed.

(** The second data row has an empty latitude field. *)
Lemma missing_coordinate_fails_witness :
  snd (csv_to_gee_points
         (source (lines_text ["junk;junk"; "Lat;Long"; "45,1;7,2"; ";8"]))
         (demo_cfg 1 None)) <> Ok tt.
Proof.
  apply (missing_coordinate_fails _ _
           (lines_text ["junk;junk"; "Lat;Long"; "45,1;7,2"; ";8"])
           ["junk"; "junk"] [["Lat"; "Long"]; ["45,1"; "7,2"]; [""; "8"]]
           (match read_csv ";"%char
                    (lines_text ["junk;junk"; "Lat;Long"; "45,1;7,2"; ";8"]) with
            | Ok df => df | Err _ => mkFrame [] [] [] end)
           [Str "Lat"; Str "Long"] "Lat" 0 1 [""; "8"]).
  - reflexivity.
  - vm_compute. reflexivity.
  - vm_compute. reflexivity.
  - vm_compute. reflexivity.
  - simpl. lia.
  - left. reflexivity.
  - reflexivity.
  - reflexivity.
  - reflexivity.
  - intros _. discriminate.
Defined.

(** Without a label column, and with at most one column [points_def] in
    the header, no two lines written by a successful run are equal: every
    line declares its own variable [point_<k>]. *)
Theorem point_lines_distinct m cfg m' txt df0 hdr :
  points_col_name cfg = None ->
  m (csv_file cfg) = Some txt ->
  read_csv (sep cfg) txt = Ok df0 ->
  iloc_row df0 (Z.of_nat (num_rows_before_header cfg) - 1) = Ok hdr ->
  length (positions points_def_col_name hdr 0) <= 1 ->
  csv_to_gee_points m cfg = (m', Ok tt) ->
  exists lines, m' (out_file cfg) = Some (concat_lines lines) /\ NoDup lines.
Proof.
  intros Hp Hm Hr Hh H1 Hrun.
  destruct (success_lines _ _ _ Hrun)
    as (txt' & df0' & hdr' & vals & Hm' & Hr' & Hh' & Ho & _ & _ & _ & B & Hl).
  rewrite Hm in Hm'. injection Hm' as <-. rewrite Hr in Hr'. injection Hr' as <-.
  rewrite Hh in Hh'. injection Hh' as <-.
  destruct (Hl (dup_count_one _ H1)) as [lines ->].
  rewrite (dup_count_one _ H1), flat_map_repeat_one in Ho.
  exists lines. split; [exact Ho|].
  assert (G : forall k l, nth_error lines k = Some l ->
            exists lo la, l = "var " ++ "point_" ++ str_of_nat k ++
                              " = ee.Geometry.Point([" ++ lo ++ "," ++ la ++ "]);").
  { intros k l Hk.
    assert (Ev : nth_error (map Str lines) k = Some (Str l))
      by (rewrite nth_error_map, Hk; reflexivity).
    destruct (B k _ Ev) as (r & _ & Hlen & Hd).
    exact (row_def_point_label _ _ _ _ _ Hp Hlen Hd). }
  apply NoDup_nth_error. intros i j Hi E.
  apply nth_error_Some in Hi.
  destruct (nth_error lines i) as [l|] eqn:Ei; [|contradiction].
  destruct (G i l Ei) as [lo [la Hl']]. destruct (G j l (eq_sym E)) as [lo' [la' Hl'']].
  rewrite Hl' in Hl''.
  apply (string_app_cancel_l "var point_") in Hl''.
  destruct (str_of_nat_digits i) as (_ & Ai & _).
  destruct (str_of_nat_digits j) as (_ & Aj & _).
  apply str_of_nat_inj. exact (digits_prefix _ _ _ _ Ai Aj Hl'').
Qed.

Lemma point_lines_distinct_witness :
  exists lines,
    fst (csv_to_gee_points (source demo_txt) (demo_cfg 1 None)) "out_file.txt" =
      Some (concat_lines lines) /\ NoDup lines.
Proof.
  apply (point_lines_distinct (source demo_txt) (demo_cfg 1 None) _ demo_txt
           (match read_csv ";"%char demo_txt with Ok df => df | Err _ => mkFrame [] [] [] end)
           [Str "Lat"; Str "Long"]).
  - reflexivity.
  - reflexivity.
  - vm_compute. reflexivity.
  - vm_compute. reflexivity.
  - simpl. lia.
  - vm_compute. reflexivity.
Defined.

(** When the label, latitude and longitude columns are distinct (and,
    without a label column, neither coordinate column is named [index]),
    and the header has at most one column [points_def], the k-th line of
    a successful run is [var <label> = ee.Geometry.Point([<long>,<lat>]);]
    built from the k-th data row: the label field as it is (or
    [point_<k>]), and the longitude and latitude fields with commas
    replaced by dots. *)
Theorem output_lines_from_rows m cfg m' txt df0 hdr :
  lat_col_name cfg <> long_col_name cfg ->
  match points_col_name cfg with
  | Some p => p <> lat_col_name cfg /\ p <> long_col_name cfg
  | None => lat_col_name cfg <> "index" /\ long_col_name cfg <> "index"
  end ->
  m (csv_file cfg) = Some txt ->
  read_csv (sep cfg) txt = Ok df0 ->
  iloc_row df0 (Z.of_nat (num_rows_before_header cfg) - 1) = Ok hdr ->
  length (positions points_def_col_name hdr 0) <= 1 ->
  csv_to_gee_points m cfg = (m', Ok tt) ->
  exists lines,
    m' (out_file cfg) = Some (concat_lines lines) /\
    length lines = length (skipn (num_rows_before_header cfg) (rows df0)) /\
    forall k r l,
      nth_error (skipn (num_rows_before_header cfg) (rows df0)) k = Some r ->
      nth_error lines k = Some l ->
      exists label lo la,
        row_getitem hdr (long_col_name cfg) r = Ok (Str lo) /\
        row_getitem hdr (lat_col_name cfg) r = Ok (Str la) /\
        match points_col_name cfg with
        | Some p => row_getitem hdr p r = Ok (Str label)
        | None => label = "point_" ++ str_of_nat k
        end /\
        l = "var " ++ label ++ " = ee.Geometry.Point([" ++ str_replace_comma lo ++ "," ++
            str_replace_comma la ++ "]);".
Proof.
  intros Hll Hnames Hm Hr Hh H1 Hrun.
  destruct (success_lines _ _ _ Hrun)
    as (txt' & df0' & hdr' & vals & Hm' & Hr' & Hh' & Ho & _ & L & F & _ & Hl).
  rewrite Hm in Hm'. injection Hm' as <-. rewrite Hr in Hr'. injection Hr' as <-.
  rewrite Hh in Hh'. injection Hh' as <-.
  destruct (Hl (dup_count_one _ H1)) as [lines ->].
  rewrite (dup_count_one _ H1), flat_map_repeat_one in Ho.
  exists lines. split; [exact Ho|]. split; [rewrite length_map in L; exact L|].
  intros k r l Er El.
  destruct (F k r Er) as [Hlen [v [Ev Hd]]].
  rewrite nth_error_map, El in Ev. injection Ev as <-.
  exact (row_def_line _ _ _ _ _ Hll Hnames Hlen Hd).
Qed.

Lemma output_lines_from_rows_witness :
  exists lines,
    fst (csv_to_gee_points (source named_txt) (demo_cfg 1 (Some "Name"))) "out_file.txt" =
      Some (concat_lines lines) /\
    length lines =
      length (skipn 1 (rows (match read_csv ";"%char named_txt with
                             | Ok df => df | Err _ => mkFrame [] [] [] end))) /\
    forall k r l,
      nth_error (skipn 1 (rows (match read_csv ";"%char named_txt with
                                | Ok df => df | Err _ => mkFrame [] [] [] end))) k = Some r ->
      nth_error lines k = Some l ->
      exists label lo la,
        row_getitem [Str "Name"; Str "Lat"; Str "Long"] "Long" r = Ok (Str lo) /\
        row_getitem [Str "Name"; Str "Lat"; Str "Long"] "Lat" r = Ok (Str la) /\
        row_getitem [Str "Name"; Str "Lat"; Str "Long"] "Name" r = Ok (Str label) /\
        l = "var " ++ label ++ " = ee.Geometry.Point([" ++ str_replace_comma lo ++ "," ++
            str_replace_comma la ++ "]);".
Proof.
  apply (output_lines_from_rows (source named_txt) (demo_cfg 1 (Some "Name")) _ named_txt
           (match read_csv ";"%char named_txt with Ok df => df | Err _ => mkFrame [] [] [] end)
           [Str "Name"; Str "Lat"; Str "Long"]).
  - discriminate.
  - split; discriminate.
  - reflexivity.
  - vm_compute. reflexivity.
  - vm_compute. reflexivity.
  - simpl. lia.
  - vm_compute. reflexivity.
Defined.

(** *** Tokenizing and writing text *)



(** The text [to_csv] writes for records of at least one field can be
    read back line by line, a backslash taking the next character
    literally: this gives exactly the fields of the records written, all
    of them when the writer finishes, and those of the records before the
    refused one when it stops. *)
Theorem written_lines_round_trip recs :
  Forall (fun r => r <> []) recs ->
  exists k, k <= length recs /\
    unescape_lines [] (list_ascii_of_string (fst (write_rows recs))) =
      flat_map (map cell_text) (firstn k recs) /\
    (snd (write_rows recs) = None <-> k = length recs).
Proof.
  intros H. destruct (write_rows_spec _ H) as (k & Hk & Ht & _ & He).
  exists k. split; [exact Hk|]. split; [rewrite Ht; apply concat_lines_round_trip|].
  destruct He as [[Hn Hkl] | [Hs (r & Hr & _)]].
  - split; intros _; assumption.
  - rewrite Hs. split; [discriminate|]. intros ->.
    rewrite (proj2 (nth_error_None recs (length recs)) (le_n _)) in Hr. discriminate.
Qed.

Lemma written_lines_round_trip_witness :
  exists k, k <= 3 /\
    unescape_lines []
      (list_ascii_of_string (fst (write_rows [[Str "a"]; [NaN]; [Str "b"]]))) =
      flat_map (map cell_text) (firstn k [[Str "a"]; [NaN]; [Str "b"]]) /\
    (snd (write_rows [[Str "a"]; [NaN]; [Str "b"]]) = None <-> k = 3).
Proof.
  apply (written_lines_round_trip [[Str "a"]; [NaN]; [Str "b"]]).
  repeat constructor; discriminate.
Defined.


